(** * FlowMind: the priority cache and the prioritization coordinator

    A shallow embedding of the storage layer ([storage]),
    of [prioritizeTasks], [uid], [runPrioritize] and [handleAdd] from
    [src/App.jsx], followed by the properties of the ordering and caching
    workflow.

    JavaScript objects are modelled at the level the code observes them:
    - a task is a record of the fields the code reads or copies;
    - [map[k]] on an object built by [Object.fromEntries] (or by
      [JSON.parse]) finds an own property, else a member of
      [Object.prototype] when [k] names one, else [undefined];
    - the text kept in [localStorage] is represented by what [JSON.parse]
      makes of it, and [localStorage] itself is taken to work ([getItem]
      and [setItem] do not fail);
    - [async] functions are run to completion: a rejected promise is a
      thrown exception, and the clock is read where the code reads it. *)

From stdpp Require Import gmap strings list.
From Stdlib Require Import ZArith Lia.

Local Open Scope Z_scope.
Local Open Scope string_scope.
Local Open Scope list_scope.

(** ** Values *)

(** What a [priorityReason] can hold. [Null] stands for [null] and for
    [undefined], which the code never tells apart. [Alien k] is a value that
    is neither: the member [k] of [Object.prototype], picked up by a property
    read that found no own property [k]. *)
Inductive Reason :=
| Null
| Text (s : string)
| Alien (k : string).

#[global] Instance Reason_eq_dec : EqDecision Reason.
Proof. solve_decision. Defined.

(** A task record. [rest] holds the fields that are only carried along
    ([createdAt], [doneAt], [aiHint], [note]). *)
Record Task := mkTask {
  id : string;
  title : string;
  deadline : option string;
  priority : string;
  category : string;
  energy : string;
  status : string;
  priorityReason : Reason;
  rest : list (string * string)
}.

#[global] Instance Task_eq_dec : EqDecision Task.
Proof. solve_decision. Defined.

(** An element of the task list: a task, or the object [{ priorityReason }]
    that spreading a member of [Object.prototype] leaves behind (such a
    member has no enumerable own property, so the spread copies nothing). *)
Inductive Row :=
| Full (t : Task)
| Bare (r : Reason).

#[global] Instance Row_eq_dec : EqDecision Row.
Proof. solve_decision. Defined.

(** [t.id] and [t.status]; [None] is [undefined]. *)
Definition row_id (r : Row) : option string :=
  match r with Full t => Some (id t) | Bare _ => None end.

Definition row_status (r : Row) : option string :=
  match r with Full t => Some (status t) | Bare _ => None end.

Definition row_reason (r : Row) : Reason :=
  match r with Full t => priorityReason t | Bare x => x end.

(** [t.status === "active"] *)
Definition isActive (r : Row) : bool :=
  bool_decide (row_status r = Some "active").

(** The property key a value used as [o[v]] converts to. *)
Definition propKey (v : option string) : string :=
  match v with Some s => s | None => "undefined" end.

(** ** Property lookup *)

(** The names every ordinary object inherits from [Object.prototype]. *)
Definition inherited : list string :=
  [ "constructor"; "hasOwnProperty"; "isPrototypeOf"; "propertyIsEnumerable";
    "toLocaleString"; "toString"; "valueOf"; "__proto__";
    "__defineGetter__"; "__defineSetter__"; "__lookupGetter__";
    "__lookupSetter__" ].

Inductive Slot (A : Type) :=
| Own (a : A)
| Proto (k : string)
| Missing.
Arguments Own {A} a.
Arguments Proto {A} k.
Arguments Missing {A}.

(** [o[k]] *)
Definition getProp {A} (o : gmap string A) (k : string) : Slot A :=
  match o !! k with
  | Some a => Own a
  | None => if bool_decide (k ∈ inherited) then Proto k else Missing
  end.

(** [Object.fromEntries]: a later entry overwrites an earlier one. *)
Definition fromEntries {A} (l : list (string * A)) : gmap string A :=
  foldl (fun m kv => <[kv.1 := kv.2]> m) ∅ l.

(** [{ ...v, priorityReason: r }] for a truthy [v] read from a lookup. *)
Definition withReason (r : Reason) (v : Slot Row) : Row :=
  match v with
  | Own (Full t) =>
      Full (mkTask (id t) (title t) (deadline t) (priority t) (category t)
                   (energy t) (status t) r (rest t))
  | _ => Bare r
  end.

Arguments withReason : simpl never.

(** [v.id] for a value read from a lookup. *)
Definition slot_id (v : Slot Row) : option string :=
  match v with Own r => row_id r | _ => None end.

(** [Boolean(v)]: objects and functions are truthy, [undefined] is not. *)
Definition truthy {A} (v : Slot A) : bool :=
  match v with Missing => false | _ => true end.

(** ** Storage layer *)

(** One [{ id, priorityReason }] of the cache, as read back from storage:
    the id is a string, or absent ([None]), as in the pairs the code
    writes. *)
Record CacheItem := mkItem {
  cached_id : option string;
  cached_reason : Reason
}.

#[global] Instance CacheItem_eq_dec : EqDecision CacheItem.
Proof. solve_decision. Defined.

(** The record [{ data, at }]. [data = None]: no [data] property (or a falsy
    one); [at_ = Some a]: [c.at] converts to the integer [a], as a stamp
    written by the code does; [at_ = None]: [c.at] does not convert to a
    number, so that [Date.now() - c.at] is [NaN]. *)
Record CacheEntry := mkEntry {
  data : option (list CacheItem);
  at_ : option Z
}.

(** What [JSON.parse] returns for the cache slot, told apart as far as the
    two readers of the cache do:
    - [JNull]: a falsy value ([null]);
    - [JEntry e]: a value both readers get through, with the stamp and the
      pairs of [e];
    - [JBadStamp]: an object whose [at] does not convert to a number, so that
      [Date.now() - c.at] throws a [TypeError]. JSON text can say so: in
      [{"at":{"toString":0}}] the own property [toString] hides the
      inherited method and is not callable (an array holding such an object
      fails in the same way);
    - [JBadData a]: an object whose [at] converts as [a] says (as [at_]
      does) and whose [data] is truthy but is not a list of pairs that can be
      walked: [data] is not an array, and [cached.data.map] is not a
      function; or one of its items is [null], and [t.id] throws; or an [id]
      does not convert to a property key, and [map[t.id]] throws. *)
Inductive Json :=
| JNull
| JEntry (c : CacheEntry)
| JBadStamp
| JBadData (a : option Z).

(** The string stored under [fm_priority_cache]: empty, not JSON, or the
    serialisation of a value. *)
Inductive Stored :=
| SEmpty
| SBroken
| SJson (j : Json).

(** What the coordinator does to the outside world. *)
Inductive Event :=
| Asked (timeOfDay : string) (tasks : list Row)
| CacheWritten (c : CacheEntry).

Record World := mkWorld {
  cache : option Stored;
  events : list Event;
  prioritizing : bool;
  lastPrioritized : option Z
}.

(** ** Exceptions and state *)

Inductive Result (A : Type) :=
| Ok (a : A)
| Thrown.
Arguments Ok {A} a.
Arguments Thrown {A}.

Definition M (A : Type) : Type := World -> Result A * World.

Definition ret {A} (a : A) : M A := fun w => (Ok a, w).

Definition throw {A} : M A := fun w => (Thrown, w).

Definition bind {A B} (m : M A) (f : A -> M B) : M B :=
  fun w => match m w with
           | (Ok a, w') => f a w'
           | (Thrown, w') => (Thrown, w')
           end.

(** [try { m } catch { h }] *)
Definition try_catch {A} (m h : M A) : M A :=
  fun w => match m w with
           | (Thrown, w') => h w'
           | r => r
           end.

(** [try { m } finally { f }] *)
Definition finally {A} (m : M A) (f : M unit) : M A :=
  fun w => let (r, w') := m w in (r, (f w').2).

Declare Scope js_scope.
Delimit Scope js_scope with js.
Notation "x <- m ;; k" := (bind m (fun x => k))
  (at level 100, m at next level, right associativity) : js_scope.
Notation "m ;;; k" := (bind m (fun _ => k))
  (at level 100, right associativity) : js_scope.
Local Open Scope js_scope.

(** [JSON.parse] *)
Definition JSON_parse (s : Stored) : Result Json :=
  match s with
  | SJson j => Ok j
  | SEmpty | SBroken => Thrown
  end.

(** [localStorage.getItem("fm_priority_cache") || "null"] *)
Definition getItem_or_null (w : World) : Stored :=
  match cache w with
  | None | Some SEmpty => SJson JNull
  | Some s => s
  end.

(** [JSON.parse(localStorage.getItem("fm_priority_cache") || "null")], the
    expression both readers of the cache start with. *)
Definition readItem : M Json :=
  fun w => (JSON_parse (getItem_or_null w), w).

(** What a [priorityReason] reads back as after [JSON.stringify] and
    [JSON.parse]: a function is left out, [Object.prototype] is written as
    an empty object. *)
Definition persisted (r : Reason) : Reason :=
  match r with
  | Alien k => if bool_decide (k = "__proto__") then Alien k else Null
  | _ => r
  end.

Module storage.

(** [getPriorityCache] *)
Definition getPriorityCache : M Json := readItem.

(** [savePriorityCache], at clock reading [t] of [Date.now()]. *)
Definition savePriorityCache (d : list CacheItem) (t : Z) : M unit :=
  fun w =>
    let c := mkEntry
               (Some (map (fun i => mkItem (cached_id i) (persisted (cached_reason i))) d))
               (Some t) in
    (Ok tt, mkWorld (Some (SJson (JEntry c))) (events w ++ [CacheWritten c])
                    (prioritizing w) (lastPrioritized w)).

(** [isPriorityCacheValid], at clock reading [t] of [Date.now()]. *)
Definition isPriorityCacheValid (t : Z) : M bool :=
  c <- readItem ;;
  match c with
  | JNull => ret false
  | JEntry e =>
      ret (match at_ e with
           | Some a => bool_decide (t - a < 60 * 60 * 1000)
           | None => false
           end)
  | JBadStamp => throw
  | JBadData a =>
      ret (match a with
           | Some a => bool_decide (t - a < 60 * 60 * 1000)
           | None => false
           end)
  end.

End storage.

(** ** The ranking oracle *)

(** The text [callClaude] resolves to, as [prioritizeTasks] reads it.
    [Unusable]: the body of its [try] throws, because the text is not JSON
    (this includes the empty text returned without an API key or on a
    non-2xx status) or because the parsed value has no [order] array.
    [Ranking order reasons]: [result.order] as the property keys its entries
    convert to, and [result.reasons] ([None] when absent or [null]). *)
Inductive Answer :=
| Unusable
| Ranking (order : list string) (reasons : option (gmap string string)).

(** The oracle answers a prompt, which the code builds from the time of day
    and the submitted tasks; [Thrown] is a rejected [fetch]. *)
Definition Oracle : Type := string -> list Row -> Result Answer.

(** The readings of the clock during one call: [hour] is
    [new Date().getHours()]; [now] is [Date.now()] when the cache is checked;
    [later] and [shown] are [Date.now()] once the oracle has answered, as
    read by [savePriorityCache] and for [setLastPrioritized]. *)
Record Clock := mkClock {
  hour : Z;
  now : Z;
  later : Z;
  shown : Z
}.

Definition timeOfDay (h : Z) : string :=
  if bool_decide (h < 12) then "morning"
  else if bool_decide (h < 17) then "afternoon"
  else "evening".

(** [callClaude(prompt, system)] *)
Definition callClaude (oracle : Oracle) (tod : string) (tasks : list Row) : M Answer :=
  fun w =>
    (oracle tod tasks,
     mkWorld (cache w) (events w ++ [Asked tod tasks])
             (prioritizing w) (lastPrioritized w)).

(** [result.reasons?.[v] || null]: an empty string is falsy. *)
Definition reasonFor (reasons : option (gmap string string)) (v : option string) : Reason :=
  match reasons with
  | None => Null
  | Some m =>
      match getProp m (propKey v) with
      | Own s => if bool_decide (s = "") then Null else Text s
      | Proto k => Alien k
      | Missing => Null
      end
  end.

(** [Object.fromEntries(tasks.map((t) => [t.id, t]))] *)
Definition byId (tasks : list Row) : gmap string Row :=
  fromEntries (map (fun t => (propKey (row_id t), t)) tasks).

(** [prioritizeTasks] *)
Definition prioritizeTasks (oracle : Oracle) (h : Z) (tasks : list Row) : M (list Row) :=
  if bool_decide (length tasks = 0%nat) then ret tasks
  else
    text <- callClaude oracle (timeOfDay h) tasks ;;
    match text with
    | Unusable => ret tasks
    | Ranking order reasons =>
        let map_ := byId tasks in
        let sorted := filter (fun v => truthy v = true)
                             (map (fun k => getProp map_ k) order) in
        ret (map (fun v => withReason (reasonFor reasons (slot_id v)) v) sorted)
    end.

(** ** The coordinator *)

Definition setPrioritizing (b : bool) : M unit :=
  fun w => (Ok tt, mkWorld (cache w) (events w) b (lastPrioritized w)).

Definition setLastPrioritized (t : Z) : M unit :=
  fun w => (Ok tt, mkWorld (cache w) (events w) (prioritizing w) (Some t)).

(** [cached?.data], when truthy, as the pairs the cache-hit block walks;
    on data that cannot be walked the block throws before it has changed
    anything. (A value with a bad stamp does not get this far: the validity
    check has thrown.) *)
Definition cachedData (c : Json) : M (option (list CacheItem)) :=
  match c with
  | JNull => ret None
  | JEntry e => ret (data e)
  | JBadStamp => ret None
  | JBadData _ => throw
  end.

(** The cache-hit block of [runPrioritize]: apply the cached order to the
    current tasks, then add the tasks that are not in the cache. *)
Definition applyCache (d : list CacheItem) (currentTasks : list Row) : list Row :=
  let map_ := byId currentTasks in
  let reordered :=
    omap (fun t : CacheItem =>
            let v := getProp map_ (propKey (cached_id t)) in
            if truthy v then Some (withReason (cached_reason t) v) else None) d in
  let cachedIds : gset (option string) := list_to_set (map cached_id d) in
  let remaining := filter (fun t => row_id t ∉ cachedIds) currentTasks in
  reordered ++ remaining.

(** [runPrioritize(currentTasks, force)] *)
Definition runPrioritize (oracle : Oracle) (clk : Clock)
    (currentTasks : list Row) (force : bool) : M (list Row) :=
  let active := filter (fun t => isActive t = true) currentTasks in
  if bool_decide (length active < 2)%nat then ret currentTasks
  else
    valid <- (if negb force then storage.isPriorityCacheValid (now clk) else ret false) ;;
    hit <- (if valid then c <- storage.getPriorityCache ;; cachedData c
            else ret None) ;;
    match hit with
    | Some d => ret (applyCache d currentTasks)
    | None =>
        setPrioritizing true ;;;
        finally
          (try_catch
             (sorted <- prioritizeTasks oracle (hour clk) active ;;
              let doneTasks := filter (fun t => isActive t = false) currentTasks in
              let merged := sorted ++ doneTasks in
              storage.savePriorityCache
                (map (fun t => mkItem (row_id t) (row_reason t)) sorted)
                (later clk) ;;;
              setLastPrioritized (shown clk) ;;;
              ret merged)
             (ret currentTasks))
          (setPrioritizing false)
    end.

(** ** Adding a task *)

(** [uid], given the text [rnd] of [Math.random().toString(36)]:
    [rnd.slice(2, 9)]. *)
Definition uid (rnd : string) : string := String.substring 2 7 rnd.

(** The draft [parseTask] returns. *)
Record Draft := mkDraft {
  draft_title : string;
  draft_deadline : option string;
  draft_priority : string;
  draft_category : string;
  draft_energy : string;
  draft_aiHint : string
}.

(** The task built by [handleConfirm] of [AddTaskModal]. *)
Definition newTask (rnd : string) (parsed : Draft) (createdAt : string) : Row :=
  Full (mkTask (uid rnd) (draft_title parsed) (draft_deadline parsed)
               (draft_priority parsed) (draft_category parsed)
               (draft_energy parsed) "active" Null
               [("aiHint", draft_aiHint parsed); ("createdAt", createdAt)]).

(** [handleAdd(task)] of [FlowMind], on the task list [tasks] held by the
    component; it yields the list passed to [setTasks] and [saveTasks]. *)
Definition handleAdd (oracle : Oracle) (clk : Clock) (task : option Row)
    (tasks : list Row) (w : World) : list Row * World :=
  match task with
  | None => (tasks, w)
  | Some t =>
      let updated := t :: tasks in
      match runPrioritize oracle clk updated true w with
      | (Ok sorted, w') => (sorted, w')
      | (Thrown, w') => (tasks, w')
      end
  end.

(** ** Notions used in the statements *)

Definition ids (l : list Row) : list (option string) := map row_id l.

Definition activeTasks (l : list Row) : list Row :=
  filter (fun t => isActive t = true) l.

Definition otherTasks (l : list Row) : list Row :=
  filter (fun t => isActive t = false) l.

(** The row is a task record (it has an [id]). *)
Definition isTask (r : Row) : Prop :=
  match r with Full _ => True | Bare _ => False end.

#[global] Instance isTask_dec (r : Row) : Decision (isTask r).
Proof. destruct r; apply _. Defined.

(** A row with its [priorityReason] blanked: two rows with the same image
    differ at most in their reason. *)
Definition forget (r : Row) : Row := withReason Null (Own r).

(** The record of the task list that carries id [k] (the last one, should
    the list hold several). *)
Definition taskWithId (k : string) (l : list Row) : option Row :=
  last (filter (fun t => row_id t = Some k) l).

(** The key is not the name of a member of [Object.prototype]. *)
Definition plainKey (k : string) : Prop := k ∉ inherited.

#[global] Instance plainKey_dec (k : string) : Decision (plainKey k).
Proof. unfold plainKey. apply _. Defined.

(** A cached pair that carries an id, which is not such a name. *)
Definition plainItem (c : CacheItem) : Prop :=
  match cached_id c with Some k => plainKey k | None => False end.

#[global] Instance plainItem_dec (c : CacheItem) : Decision (plainItem c).
Proof. unfold plainItem. destruct (cached_id c); apply _. Defined.

(** The cache slot holds the entry [{ data: d, at }] and it is younger than
    one hour at clock reading [t]. *)
Definition validEntry (t : Z) (w : World) (d : list CacheItem) : Prop :=
  ∃ a, cache w = Some (SJson (JEntry (mkEntry (Some d) (Some a))))
       ∧ t - a < 60 * 60 * 1000.

(** The number the [at] of a stored value converts to, when it has one that
    converts. *)
Definition stamp (j : Json) : option Z :=
  match j with
  | JEntry e => at_ e
  | JBadData a => a
  | JNull | JBadStamp => None
  end.

(** The cache cannot be read at clock reading [t]: the stored text does not
    parse, or its stamp does not convert, or its stamp is younger than one
    hour and its data cannot be walked. *)
Definition Unreadable (t : Z) (w : World) : Prop :=
  cache w = Some SBroken
  \/ cache w = Some (SJson JBadStamp)
  \/ exists a, cache w = Some (SJson (JBadData (Some a)))
               /\ t - a < 60 * 60 * 1000.

(** The cache is not used: the refresh is forced, or the validity check
    answers no, or the stored entry has no [data]. *)
Definition Bypassed (force : bool) (t : Z) (w : World) : Prop :=
  force = true
  ∨ (storage.isPriorityCacheValid t w).1 = Ok false
  ∨ (∃ e, getItem_or_null w = SJson (JEntry e) ∧ data e = None).

(** *** Reconciliation as the specification words it (section 4.1) *)

(** Steps 1 and 2: the cached pairs whose id is in the current list, each as
    the current record with the cached reason. *)
Definition reconciled (d : list CacheItem) (tasks : list Row) : list Row :=
  omap (fun c : CacheItem =>
          k ← cached_id c;
          t ← taskWithId k tasks;
          Some (withReason (cached_reason c) (Own t))) d.

(** Step 3: the active tasks that are not in the cache. *)
Definition newlyAdded (d : list CacheItem) (tasks : list Row) : list Row :=
  filter (fun t => isActive t = true ∧ row_id t ∉ map cached_id d) tasks.

(** Step 4: reconciled ++ newly added ++ non-active. *)
Definition spec_reconcile (d : list CacheItem) (tasks : list Row) : list Row :=
  reconciled d tasks ++ newlyAdded d tasks ++ otherTasks tasks.

(** What the code appends instead: every current task that is not in the
    cache, whatever its status, in its current position. *)
Definition notCached (d : list CacheItem) (tasks : list Row) : list Row :=
  filter (fun t => row_id t ∉ map cached_id d) tasks.

(** *** The success path as the specification words it (section 4.2) *)

(** "Attach priorityReason from the rationale map (absent -> null)". *)
Definition spec_rationale (reasons : option (gmap string string)) (k : string) : Reason :=
  match reasons ≫= (fun m => m !! k) with
  | Some s => Text s
  | None => Null
  end.

Definition spec_reorderedActive (order : list string)
    (reasons : option (gmap string string)) (active : list Row) : list Row :=
  omap (fun k => t ← taskWithId k active;
                 Some (withReason (spec_rationale reasons k) (Own t))) order.

(** The rationale the code attaches: an empty one counts as absent. *)
Definition rationale (reasons : option (gmap string string)) (k : string) : Reason :=
  match reasons ≫= (fun m => m !! k) with
  | Some s => if bool_decide (s = "") then Null else Text s
  | None => Null
  end.

Definition reorderedActive (order : list string)
    (reasons : option (gmap string string)) (active : list Row) : list Row :=
  omap (fun k => t ← taskWithId k active;
                 Some (withReason (rationale reasons k) (Own t))) order.

(** The cache entry written for a reordered list at clock reading [t]. *)
Definition entryFor (sorted : list Row) (t : Z) : CacheEntry :=
  mkEntry (Some (map (fun r => mkItem (row_id r) (row_reason r)) sorted)) (Some t).

(** *** The oracle path of the code *)

(** The list [prioritizeTasks] returns for a ranking: the values found for
    the returned keys, falsy ones dropped, each with its reason attached. *)
Definition rankedRows (order : list string)
    (reasons : option (gmap string string)) (tasks : list Row) : list Row :=
  map (fun v => withReason (reasonFor reasons (slot_id v)) v)
      (filter (fun v => truthy v = true)
              (map (fun k => getProp (byId tasks) k) order)).

(** The entry [storage.savePriorityCache] leaves in storage for the list [sorted]
    at clock reading [t]. *)
Definition writtenEntry (sorted : list Row) (t : Z) : CacheEntry :=
  mkEntry
    (Some (map (fun i => mkItem (cached_id i) (persisted (cached_reason i)))
               (map (fun r => mkItem (row_id r) (row_reason r)) sorted)))
    (Some t).

(** The world after a successful oracle round: one question asked, one
    cache write, the busy flag lowered, the time of the ranking recorded. *)
Definition afterRanking (clk : Clock) (submitted sorted : list Row) (w : World) : World :=
  mkWorld (Some (SJson (JEntry (writtenEntry sorted (later clk)))))
          (events w ++ [Asked (timeOfDay (hour clk)) submitted;
                        CacheWritten (writtenEntry sorted (later clk))])
          false (Some (shown clk)).

(** ** Sample data *)

Definition sample (i st : string) : Row :=
  Full (mkTask i ("Task " +:+ i) None "medium" "work" "medium" st Null []).

Definition emptyWorld : World := mkWorld None [] false None.

Definition morning : Clock := mkClock 9 1000 2000 2001.

Definition rankedData : list CacheItem :=
  [mkItem (Some "b") (Text "quick win"); mkItem (Some "a") Null].

(** The world after the ranking [b, a] was cached at clock reading 500. *)
Definition rankedWorld : World :=
  mkWorld (Some (SJson (JEntry (mkEntry (Some rankedData) (Some 500)))))
          [] false (Some 500).

Definition answering (a : Result Answer) : Oracle := fun _ _ => a.

Definition threeTasks : list Row :=
  [sample "d" "done"; sample "a" "active"; sample "b" "active"].

Definition fourTasks : list Row :=
  [sample "d" "done"; sample "n" "active"; sample "a" "active"; sample "b" "active"].

Definition sampleDraft : Draft :=
  mkDraft "Buy milk" None "low" "personal" "low" "Quick errand".

(** ** The other handlers of [FlowMind] *)

(** Assigning a property on top of a spread: a property the spread copied
    keeps its place, a new one comes last. *)
Fixpoint setField (k v : string) (fields : list (string * string)) :
    list (string * string) :=
  match fields with
  | [] => [(k, v)]
  | kv :: tl =>
      if bool_decide (kv.1 = k) then (k, v) :: tl else kv :: setField k v tl
  end.

(** [{ ...t, status: "done", doneAt }] *)
Definition markDone (doneAt : string) (t : Task) : Task :=
  mkTask (id t) (title t) (deadline t) (priority t) (category t) (energy t)
         "done" (priorityReason t) (setField "doneAt" doneAt (rest t)).

(** The list [handleDone(id)] passes to [setTasks] and [saveTasks] once its
    timer has run. [taskId] is the id of a task record; [isoAt i] is
    [new Date().toISOString()] as read when the element at index [i] is
    mapped. *)
Definition handleDone (taskId : string) (isoAt : nat -> string)
    (tasks : list Row) : list Row :=
  imap (fun i t =>
          match t with
          | Full x =>
              if bool_decide (id x = taskId) then Full (markDone (isoAt i) x)
              else t
          | Bare _ => t
          end) tasks.

(** [handleDelete(id)] *)
Definition handleDelete (taskId : string) (tasks : list Row) : list Row :=
  filter (fun t => row_id t ≠ Some taskId) tasks.

(** [handleSave(updated)] *)
Definition handleSave (updated : Row) (tasks : list Row) : list Row :=
  map (fun t => if bool_decide (row_id t = row_id updated) then updated else t)
      tasks.

(** [handleReprioritize()], on the task list held by the component. *)
Definition handleReprioritize (oracle : Oracle) (clk : Clock)
    (tasks : list Row) (w : World) : list Row * World :=
  match runPrioritize oracle clk tasks true w with
  | (Ok sorted, w') => (sorted, w')
  | (Thrown, w') => (tasks, w')
  end.

(** ** Views *)

(** [l.slice(s, e)] for indices that are not negative. *)
Definition slice {A} (s e : nat) (l : list A) : list A :=
  take (e - s) (drop s l).

(** The three lists of [TodayView]: [now], [today] and [later]. *)
Definition todaySections (tasks : list Row) : list Row * list Row * list Row :=
  let active := filter (fun t => isActive t = true) tasks in
  (slice 0 2 active, slice 2 5 active, drop 5 active).

(** What [formatDeadline] is given: a falsy value, a string [new Date]
    cannot read, or a string it reads as the time value [ms]. *)
Inductive DeadlineArg :=
| NoDeadline
| InvalidDate
| DateAt (ms : Z).

(** The labels of [formatDeadline]; [InDays None] is the label with [NaN]
    for a number. *)
Inductive DeadlineLabel :=
| Overdue
| Today
| Tomorrow
| InDays (diff : option Z).

(** A time value of [Date]: an integer of magnitude at most 8.64e15. *)
Definition timeValue (ms : Z) : Prop :=
  -8640000000000000 <= ms <= 8640000000000000.

(** [Math.ceil(n / m)] for a positive [m], as an exact quotient. The code
    computes [(d - now) / 86400000] in floating point: while the difference
    of the two time values is at most 2^53 in magnitude the subtraction is
    exact, the quotient is below 2^27, and its rounding error (at most
    2^-27) is smaller than the distance 1/86400000 between a quotient that
    is not an integer and the nearest integer, so the ceiling is that of the
    exact quotient. Beyond 2^53 the subtraction rounds and it need not
    be. *)
Definition ceilDiv (n m : Z) : Z := - ((- n) / m).

(** [formatDeadline(iso)], the clock reading [t]; the result is the pair of
    [label] and [warn], [None] is [null]. *)
Definition formatDeadline (iso : DeadlineArg) (t : Z) :
    option (DeadlineLabel * bool) :=
  match iso with
  | NoDeadline => None
  | InvalidDate => Some (InDays None, false)
  | DateAt d =>
      let diff := ceilDiv (d - t) 86400000 in
      if bool_decide (diff < 0) then Some (Overdue, true)
      else if bool_decide (diff = 0) then Some (Today, true)
      else if bool_decide (diff = 1) then Some (Tomorrow, true)
      else Some (InDays (Some diff), false)
  end.

(** One entry of [days] in [AnalyticsView]. *)
Record Day := mkDay {
  label : string;
  created : nat;
  completed : nat
}.

(** [days.reduce((a, b) => b.completed > a.completed ? b : a, days[0])], the
    day named in the prompt of [loadInsight]; [None] when [days] is empty
    and [days[0]] is [undefined]. *)
Definition mostProductive (days : list Day) : option Day :=
  match days with
  | [] => None
  | d0 :: _ =>
      Some (foldl (fun a b => if bool_decide (completed a < completed b)%nat
                              then b else a) d0 days)
  end.

(** ** The focus timer ([FocusView]) *)

Module Focus.

Inductive Sound := playTick | playDone | playStart.

(** The state of the component: [duration] is [duration.seconds]. *)
Record State := mkState {
  duration : Z;
  timeLeft : Z;
  running : bool;
  finished : bool;
  fullscreen : bool
}.

(** The [seconds] of [FOCUS_DURATIONS]. *)
Definition FOCUS_DURATIONS : list Z := [25 * 60; 15 * 60; 45 * 60; 5 * 60].

Definition initial : State := mkState (25 * 60) (25 * 60) false false false.

(** One firing of the interval, which exists while [running]. *)
Definition tick (s : State) : State * list Sound :=
  if running s then
    if bool_decide (timeLeft s <= 1) then
      (mkState (duration s) 0 false true (fullscreen s), [playDone])
    else
      (mkState (duration s) (timeLeft s - 1) (running s) (finished s)
               (fullscreen s),
       if bool_decide (Z.rem (timeLeft s - 1) 60 = 0) then [playTick] else [])
  else (s, []).

Definition handleStart (s : State) : State * list Sound :=
  if finished s then
    (mkState (duration s) (duration s) (running s) false (fullscreen s), [])
  else
    (mkState (duration s) (timeLeft s) true (finished s) true, [playStart]).

Definition handlePause (s : State) : State :=
  mkState (duration s) (timeLeft s) false (finished s) (fullscreen s).

Definition handleReset (s : State) : State :=
  mkState (duration s) (duration s) false false false.

Definition handleChangeDuration (d : Z) (s : State) : State :=
  mkState d d false false (fullscreen s).

(** What the user and the clock can do; the duration buttons are those of
    [FOCUS_DURATIONS]. *)
Inductive Action :=
| Tick
| Start
| Pause
| Reset
| ChangeDuration (d : Z).

Definition allowed (a : Action) : Prop :=
  match a with
  | ChangeDuration d => d ∈ FOCUS_DURATIONS
  | _ => True
  end.

Definition act (a : Action) (s : State) : State * list Sound :=
  match a with
  | Tick => tick s
  | Start => handleStart s
  | Pause => (handlePause s, [])
  | Reset => (handleReset s, [])
  | ChangeDuration d => (handleChangeDuration d s, [])
  end.

(** The states the component can be in. *)
Inductive reachable : State -> Prop :=
| reachable_initial : reachable initial
| reachable_act a s : reachable s -> allowed a -> reachable (act a s).1.

(** [n] firings of the interval in a row, with the sounds they make. *)
Fixpoint ticks (n : nat) (s : State) : State * list Sound :=
  match n with
  | O => (s, [])
  | S n' => let (s1, snd1) := tick s in
            let (s2, snd2) := ticks n' s1 in
            (s2, snd1 ++ snd2)
  end.

End Focus.

(** * Properties *)

(** Closes a decidable goal on concrete data by evaluating its decision
    procedure. *)
Ltac by_evaluation :=
  refine (bool_decide_unpack _ _); vm_compute; exact I.

(** ** The storage layer *)

Lemma isPriorityCacheValid_state t w : (storage.isPriorityCacheValid t w).2 = w.
Proof.
  unfold storage.isPriorityCacheValid, bind, readItem.
  destruct (JSON_parse (getItem_or_null w)) as [[|e| |a]|]; reflexivity.
Qed.

Lemma isPriorityCacheValid_entry t w d a :
  cache w = Some (SJson (JEntry (mkEntry d (Some a)))) ->
  storage.isPriorityCacheValid t w = (Ok (bool_decide (t - a < 60 * 60 * 1000)), w).
Proof.
  intros Hc. unfold storage.isPriorityCacheValid, bind, readItem, getItem_or_null.
  rewrite Hc. reflexivity.
Qed.

(** What the validity check returns, by the stored value. *)
Lemma isPriorityCacheValid_cases t w :
  (storage.isPriorityCacheValid t w).1
  = match cache w with
    | Some SBroken | Some (SJson JBadStamp) => Thrown
    | Some (SJson j) =>
        Ok (match stamp j with
            | Some a => bool_decide (t - a < 60 * 60 * 1000)
            | None => false
            end)
    | _ => Ok false
    end.
Proof.
  unfold storage.isPriorityCacheValid, bind, readItem, getItem_or_null.
  by destruct (cache w) as [[| |[|e| |a]]|].
Qed.

(** C3, as the code has it: [storage.isPriorityCacheValid] throws in two
    cases, and lets the error reach its caller: the stored text is not empty
    and fails to parse (the error of [JSON.parse] is not caught), or it
    parses to a value whose [at] cannot be converted to a number (the error
    of the subtraction). In every other state, an absent entry included, it
    returns a boolean, which is [true] exactly when the stored value carries
    a timestamp less than one hour old; it never changes the state. *)
Theorem isPriorityCacheValid_outcome (t : Z) (w : World) :
  ((storage.isPriorityCacheValid t w).1 = Thrown <->
      cache w = Some SBroken \/ cache w = Some (SJson JBadStamp))
  /\ ((storage.isPriorityCacheValid t w).1 = Ok true <->
      exists j a, cache w = Some (SJson j) /\ stamp j = Some a
                  /\ t - a < 60 * 60 * 1000)
  /\ ((storage.isPriorityCacheValid t w).1 = Ok false <->
      cache w <> Some SBroken /\ cache w <> Some (SJson JBadStamp)
      /\ forall j a, cache w = Some (SJson j) -> stamp j = Some a ->
                     ~ t - a < 60 * 60 * 1000)
  /\ (storage.isPriorityCacheValid t w).2 = w.
Proof.
  rewrite isPriorityCacheValid_cases.
  split; [|split; [|split]]; [| | |apply isPriorityCacheValid_state].
  - destruct (cache w) as [[| |[|e| |a]]|]; split;
      try done; try (intros [H|H]; done); intros _; first [by left | by right].
  - destruct (cache w) as [[| |j]|];
      try (split; [done | intros (j' & a' & H & _); done]).
    assert (Hj : Ok (match stamp j with
                     | Some a => bool_decide (t - a < 60 * 60 * 1000)
                     | None => false
                     end) = Ok true <->
                 exists j' a, Some (SJson j) = Some (SJson j')
                              /\ stamp j' = Some a /\ t - a < 60 * 60 * 1000).
    { split.
      - intros H. injection H as H. destruct (stamp j) as [a|] eqn:Hs; [|done].
        exists j, a. repeat split; [done|]. by apply bool_decide_eq_true in H.
      - intros (j' & a & H & Hs & Hlt). injection H as <-.
        by rewrite Hs, bool_decide_true. }
    destruct j as [|e| |a]; try exact Hj.
    split; [done|]. by intros (j' & a' & H & Hs & _); injection H as <-.
  - destruct (cache w) as [[| |j]|];
      try (split; [intros _; repeat split; done | done]);
      try (split; [done | intros (H & _); done]).
    assert (Hj : Ok (match stamp j with
                     | Some a => bool_decide (t - a < 60 * 60 * 1000)
                     | None => false
                     end) = Ok false <->
                 forall j' a, Some (SJson j) = Some (SJson j') ->
                              stamp j' = Some a -> ~ t - a < 60 * 60 * 1000).
    { split.
      - intros H j' a Heq Hs. injection Heq as <-. injection H as H.
        rewrite Hs in H. by apply bool_decide_eq_false in H.
      - intros H. f_equal. destruct (stamp j) as [a|] eqn:Hs; [|done].
        apply bool_decide_eq_false. by eapply H. }
    destruct j as [|e| |a];
      try (rewrite Hj; split; [intros H; repeat split; done | by intros (_ & _ & H)]).
    split; [done | by intros (_ & H & _)].
Qed.

(** C3, as stated, fails: with a stored text that does not parse, no boolean
    is returned. *)
Lemma isPriorityCacheValid_throws_on_broken_text :
  ~ exists b : bool,
      (storage.isPriorityCacheValid 0 (mkWorld (Some SBroken) [] false None)).1 = Ok b.
Proof. intros [b Hb]. vm_compute in Hb. discriminate. Qed.

(** C6: an entry written by [storage.savePriorityCache] at time [T] is valid at
    time [t] exactly when [t - T] is less than one hour; it is valid 59
    minutes after [T] and invalid 61 minutes after [T]. *)
Theorem cache_ttl (d : list CacheItem) (T t : Z) (w : World) :
  let w' := (storage.savePriorityCache d T w).2 in
  ((storage.isPriorityCacheValid t w').1 = Ok true <-> t - T < 60 * 60 * 1000)
  /\ ((storage.isPriorityCacheValid t w').1 = Ok false <-> ~ t - T < 60 * 60 * 1000)
  /\ (storage.isPriorityCacheValid (T + 59 * 60 * 1000) w').1 = Ok true
  /\ (storage.isPriorityCacheValid (T + 61 * 60 * 1000) w').1 = Ok false.
Proof.
  intros w'.
  assert (Hv : forall u, (storage.isPriorityCacheValid u w').1
                         = Ok (bool_decide (u - T < 60 * 60 * 1000))).
  { intros u. subst w'.
    by erewrite isPriorityCacheValid_entry by reflexivity. }
  rewrite !Hv. repeat split.
  - intros H. injection H as H. by apply bool_decide_eq_true in H.
  - intros H. by rewrite bool_decide_true.
  - intros H. injection H as H. by apply bool_decide_eq_false in H.
  - intros H. by rewrite bool_decide_false.
  - f_equal. apply bool_decide_eq_true. lia.
  - f_equal. apply bool_decide_eq_false. lia.
Qed.

(** ** The coordinator: which path is taken *)

Lemma consult_bypassed {B} (force : bool) (t : Z) (w : World)
    (k : option (list CacheItem) -> M B) :
  Bypassed force t w ->
  bind (if negb force then storage.isPriorityCacheValid t else ret false)
       (fun valid =>
          bind (if valid then c <- storage.getPriorityCache ;; cachedData c
                else ret None) k) w
  = k None w.
Proof.
  intros [-> | [Hv | (e & He & Hd)]]; [reflexivity| |].
  - destruct force; [reflexivity|]. simpl. unfold bind at 1.
    pose proof (isPriorityCacheValid_state t w) as Hs.
    destruct (storage.isPriorityCacheValid t w) as [r w']. simpl in *. subst.
    reflexivity.
  - destruct force; [reflexivity|]. simpl.
    unfold storage.isPriorityCacheValid, storage.getPriorityCache, bind, readItem, ret. rewrite He. simpl.
    destruct (at_ e) as [a|]; [|reflexivity].
    destruct (bool_decide (t - a < 60 * 60 * 1000)); [|reflexivity].
    rewrite He. simpl. by rewrite Hd.
Qed.

Lemma consult_hit {B} (t : Z) (w : World) (d : list CacheItem)
    (k : option (list CacheItem) -> M B) :
  validEntry t w d ->
  bind (if negb false then storage.isPriorityCacheValid t else ret false)
       (fun valid =>
          bind (if valid then c <- storage.getPriorityCache ;; cachedData c
                else ret None) k) w
  = k (Some d) w.
Proof.
  intros (a & Hc & Hlt). simpl. unfold bind at 1.
  rewrite (isPriorityCacheValid_entry t w (Some d) a Hc).
  rewrite bool_decide_true by done.
  unfold bind, storage.getPriorityCache, readItem, getItem_or_null, ret. rewrite Hc. reflexivity.
Qed.

Lemma enough_active (tasks : list Row) :
  (2 <= length (activeTasks tasks))%nat ->
  bool_decide (length (filter (fun t => isActive t = true) tasks) < 2)%nat = false.
Proof. intros H. apply bool_decide_eq_false. unfold activeTasks in H. lia. Qed.

(** On a valid entry and without [force], the result is the cached order
    applied to the current tasks; nothing is asked and nothing is written. *)
Lemma runPrioritize_cache_hit oracle clk tasks w d :
  (2 <= length (activeTasks tasks))%nat ->
  validEntry (now clk) w d ->
  runPrioritize oracle clk tasks false w = (Ok (applyCache d tasks), w).
Proof.
  intros Hact Hv. unfold runPrioritize. rewrite enough_active by done.
  by rewrite (consult_hit _ _ d).
Qed.

(** The three outcomes of the oracle path. *)
Section OraclePath.

Variables (oracle : Oracle) (clk : Clock) (tasks : list Row).
Variables (force : bool) (w : World).
Hypothesis Hact : (2 <= length (activeTasks tasks))%nat.
Hypothesis Hby : Bypassed force (now clk) w.

Ltac oracle_path :=
  unfold runPrioritize; rewrite enough_active by exact Hact;
  rewrite consult_bypassed by exact Hby;
  unfold bind, finally, try_catch, prioritizeTasks, callClaude, setPrioritizing;
  fold (activeTasks tasks); fold (otherTasks tasks);
  rewrite bool_decide_false
    by (pose proof Hact; destruct (activeTasks tasks); simpl in *; lia);
  unfold bind; simpl.

(** The oracle call is rejected: the input comes back as it is and the
    cache slot is untouched. *)
Lemma runPrioritize_rejected :
  oracle (timeOfDay (hour clk)) (activeTasks tasks) = Thrown ->
  runPrioritize oracle clk tasks force w
  = (Ok tasks,
     mkWorld (cache w)
             (events w ++ [Asked (timeOfDay (hour clk)) (activeTasks tasks)])
             false (lastPrioritized w)).
Proof. intros Ho. oracle_path. by rewrite Ho. Qed.

(** The oracle answers with a text that cannot be used: the active tasks
    come back first, and the cache is written with their current order. *)
Lemma runPrioritize_unusable :
  oracle (timeOfDay (hour clk)) (activeTasks tasks) = Ok Unusable ->
  runPrioritize oracle clk tasks force w
  = (Ok (activeTasks tasks ++ otherTasks tasks),
     afterRanking clk (activeTasks tasks) (activeTasks tasks) w).
Proof.
  intros Ho. oracle_path. rewrite Ho. simpl.
  unfold afterRanking, writtenEntry. by rewrite <- app_assoc.
Qed.

(** The oracle answers with a ranking. *)
Lemma runPrioritize_ranking (order : list string)
    (reasons : option (gmap string string)) :
  oracle (timeOfDay (hour clk)) (activeTasks tasks) = Ok (Ranking order reasons) ->
  runPrioritize oracle clk tasks force w
  = (Ok (rankedRows order reasons (activeTasks tasks) ++ otherTasks tasks),
     afterRanking clk (activeTasks tasks)
                  (rankedRows order reasons (activeTasks tasks)) w).
Proof.
  intros Ho. oracle_path. rewrite Ho. simpl.
  unfold afterRanking, writtenEntry. by rewrite <- app_assoc.
Qed.

End OraclePath.

(** ** Threshold and failure *)

(** C5: with fewer than two active tasks, whatever the [force] flag,
    [runPrioritize] returns its input unchanged and leaves the world as it
    was: no question is asked of the oracle and no cache write is made. *)
Theorem threshold_skip (oracle : Oracle) (clk : Clock) (tasks : list Row)
    (force : bool) (w : World) :
  (length (activeTasks tasks) < 2)%nat ->
  runPrioritize oracle clk tasks force w = (Ok tasks, w).
Proof.
  intros H. unfold runPrioritize. fold (activeTasks tasks).
  by rewrite bool_decide_true.
Qed.

Lemma threshold_skip_witness :
  (length (activeTasks [sample "d" "done"; sample "a" "active"]) < 2)%nat
  /\ runPrioritize (answering (Ok (Ranking ["a"] None))) morning
                   [sample "d" "done"; sample "a" "active"] true rankedWorld
     = (Ok [sample "d" "done"; sample "a" "active"], rankedWorld).
Proof.
  split; [vm_compute; lia | apply threshold_skip; vm_compute; lia].
Defined.

(** C1, at a failing input: the oracle answers with a text that does not
    parse, on the list [d (done), a, b] with an earlier ranking in the cache
    and [force = true]. The code returns [a, b, d], not the input order, and
    replaces the cache entry by one holding the unranked order [a, b]. *)
Theorem unusable_answer_reorders_and_writes :
  let r := runPrioritize (answering (Ok Unusable)) morning threeTasks true rankedWorld in
  r.1 = Ok [sample "a" "active"; sample "b" "active"; sample "d" "done"]
  /\ r.1 <> Ok threeTasks
  /\ cache r.2
     = Some (SJson (JEntry (mkEntry
               (Some [mkItem (Some "a") Null; mkItem (Some "b") Null])
               (Some 2000))))
  /\ cache r.2 <> cache rankedWorld
  /\ events r.2
     = [Asked "morning" [sample "a" "active"; sample "b" "active"];
        CacheWritten (mkEntry
               (Some [mkItem (Some "a") Null; mkItem (Some "b") Null])
               (Some 2000))].
Proof. vm_compute. repeat split; congruence. Qed.

(** The sibling path: when the oracle call itself is rejected, the same
    input comes back unchanged and the cache entry stays. *)
Lemma rejected_call_is_a_no_op :
  let r := runPrioritize (answering Thrown) morning threeTasks true rankedWorld in
  r.1 = Ok threeTasks /\ cache r.2 = cache rankedWorld.
Proof. vm_compute. split; reflexivity. Qed.

(** ** The lookup object *)

Lemma byId_snoc (l : list Row) (x : Row) :
  byId (l ++ [x]) = <[propKey (row_id x) := x]> (byId l).
Proof.
  unfold byId, fromEntries. rewrite List.map_app. cbn [List.map].
  by rewrite foldl_snoc.
Qed.

Lemma byId_lookup_Some (l : list Row) (k : string) (r : Row) :
  byId l !! k = Some r -> r ∈ l /\ propKey (row_id r) = k.
Proof.
  induction l as [|x l IH] using rev_ind; [done|].
  rewrite byId_snoc. intros H.
  destruct (decide (propKey (row_id x) = k)) as [<-|Hne].
  - rewrite lookup_insert_eq in H. injection H as <-.
    split; [|done]. apply elem_of_app. right. by apply list_elem_of_singleton.
  - rewrite lookup_insert_ne in H by done. destruct (IH H) as [Hin Hk].
    split; [|done]. apply elem_of_app. by left.
Qed.

Lemma taskWithId_snoc (k : string) (l : list Row) (x : Row) :
  taskWithId k (l ++ [x])
  = if decide (row_id x = Some k) then Some x else taskWithId k l.
Proof.
  unfold taskWithId. rewrite filter_app.
  destruct (decide (row_id x = Some k)) as [He|Hne].
  - rewrite (filter_cons_True _ x []), filter_nil by done. by rewrite last_snoc.
  - rewrite (filter_cons_False _ x []), filter_nil by done. by rewrite app_nil_r.
Qed.

Lemma taskWithId_Some (k : string) (l : list Row) (t : Row) :
  taskWithId k l = Some t -> t ∈ l /\ row_id t = Some k.
Proof.
  unfold taskWithId. intros H. apply last_Some_elem_of in H.
  apply list_elem_of_filter in H. tauto.
Qed.

(** On a list of task records, the lookup object maps an id to the last
    record that carries it. *)
Lemma byId_tasks (l : list Row) (k : string) :
  Forall isTask l -> byId l !! k = taskWithId k l.
Proof.
  induction l as [|x l IH] using rev_ind; intros H; [done|].
  rewrite Forall_app, Forall_singleton in H. destruct H as [Hl Hx].
  rewrite byId_snoc, taskWithId_snoc.
  destruct x as [t|r]; [|by simpl in Hx]. simpl.
  destruct (decide (Some (id t) = Some k)) as [He|Hne].
  - injection He as <-. by rewrite lookup_insert_eq.
  - rewrite lookup_insert_ne by congruence. by apply IH.
Qed.

Lemma isActive_isTask (r : Row) : isActive r = true -> isTask r.
Proof. by destruct r. Qed.

Lemma activeTasks_isTask (l : list Row) : Forall isTask (activeTasks l).
Proof.
  apply Forall_forall. intros r Hr. apply list_elem_of_filter in Hr as [Hr _].
  by apply isActive_isTask.
Qed.

Lemma row_id_withReason_Own (x : Reason) (r : Row) :
  row_id (withReason x (Own r)) = row_id r.
Proof. by destruct r. Qed.

Lemma row_id_withReason (x : Reason) (v : Slot Row) :
  row_id (withReason x v) = slot_id v.
Proof. by destruct v as [[t|r]| |]. Qed.

Lemma forget_withReason_Own (x : Reason) (r : Row) :
  forget (withReason x (Own r)) = forget r.
Proof. by destruct r. Qed.

Lemma row_id_forget (r : Row) : row_id (forget r) = row_id r.
Proof. by destruct r. Qed.

Lemma isActive_forget (r : Row) : isActive (forget r) = isActive r.
Proof. by destruct r. Qed.

(** ** The success path *)

Lemma reasonFor_plain (reasons : option (gmap string string)) (k : string) :
  plainKey k -> reasonFor reasons (Some k) = rationale reasons k.
Proof.
  intros Hk. unfold reasonFor, rationale, getProp.
  destruct reasons as [m|]; simpl; [|done].
  destruct (m !! k); [done|]. by rewrite bool_decide_false.
Qed.

Lemma getProp_tasks (l : list Row) (k : string) :
  Forall isTask l -> plainKey k ->
  getProp (byId l) k
  = match taskWithId k l with Some t => Own t | None => Missing end.
Proof.
  intros Hl Hk. unfold getProp. rewrite byId_tasks by done.
  destruct (taskWithId k l); [done|]. by rewrite bool_decide_false.
Qed.

Lemma rankedRows_cons (k : string) (order : list string)
    (reasons : option (gmap string string)) (l : list Row) :
  rankedRows (k :: order) reasons l
  = match getProp (byId l) k with
    | Missing => rankedRows order reasons l
    | v => withReason (reasonFor reasons (slot_id v)) v
           :: rankedRows order reasons l
    end.
Proof.
  unfold rankedRows. cbn [List.map]. rewrite filter_cons.
  destruct (getProp (byId l) k); simpl; try case_decide; done.
Qed.

(** When no returned key names a member of [Object.prototype], the list
    built by [prioritizeTasks] holds, for each returned id in turn, the
    submitted record with that id and the rationale given for it. *)
Lemma rankedRows_plain (order : list string)
    (reasons : option (gmap string string)) (l : list Row) :
  Forall isTask l -> Forall plainKey order ->
  rankedRows order reasons l = reorderedActive order reasons l.
Proof.
  intros Hl Ho. induction Ho as [|k order Hk Ho IH]; [done|].
  rewrite rankedRows_cons, getProp_tasks by done.
  unfold reorderedActive. cbn [omap list_omap]. fold (reorderedActive order reasons l).
  destruct (taskWithId k l) as [t|] eqn:Ht; simpl; [|done].
  apply taskWithId_Some in Ht as [_ Hid].
  by rewrite Hid, reasonFor_plain, IH.
Qed.

Lemma rationale_persisted (reasons : option (gmap string string)) (k : string) :
  persisted (rationale reasons k) = rationale reasons k.
Proof.
  unfold rationale. destruct (reasons ≫= _); [|done]. by case_bool_decide.
Qed.

Lemma writtenEntry_reorderedActive (order : list string)
    (reasons : option (gmap string string)) (l : list Row) (t : Z) :
  writtenEntry (reorderedActive order reasons l) t
  = entryFor (reorderedActive order reasons l) t.
Proof.
  unfold writtenEntry, entryFor. do 2 f_equal. rewrite List.map_map. simpl.
  apply List.map_ext_in. intros r Hr. f_equal.
  apply list_elem_of_In, list_elem_of_omap in Hr as (k & _ & Hk).
  destruct (taskWithId k l) as [x|]; simpl in Hk; [|done].
  injection Hk as <-. destruct x; simpl; apply rationale_persisted.
Qed.

(** C4, as the code has it: on the oracle-success path (two active tasks or
    more, cache bypassed, the oracle answers with a ranking), and when no
    returned id is the name of a member of [Object.prototype], the result is
    [reorderedActive ++ others]: the records of the returned ids in the order
    given, ids not found among the submitted active tasks dropped, each with
    the rationale for its id, or null when that rationale is absent or empty;
    one question is asked and exactly one cache write is made, storing that
    ordering and those reasons. *)
Theorem ranking_success (oracle : Oracle) (clk : Clock) (tasks : list Row)
    (force : bool) (w : World) (order : list string)
    (reasons : option (gmap string string)) :
  (2 <= length (activeTasks tasks))%nat ->
  Bypassed force (now clk) w ->
  oracle (timeOfDay (hour clk)) (activeTasks tasks) = Ok (Ranking order reasons) ->
  Forall plainKey order ->
  let sorted := reorderedActive order reasons (activeTasks tasks) in
  runPrioritize oracle clk tasks force w
  = (Ok (sorted ++ otherTasks tasks),
     mkWorld (Some (SJson (JEntry (entryFor sorted (later clk)))))
             (events w ++ [Asked (timeOfDay (hour clk)) (activeTasks tasks);
                           CacheWritten (entryFor sorted (later clk))])
             false (Some (shown clk))).
Proof.
  intros Hact Hby Ho Hplain sorted.
  rewrite (runPrioritize_ranking _ _ _ _ _ Hact Hby order reasons) by done.
  unfold afterRanking.
  rewrite rankedRows_plain by (done || apply activeTasks_isTask).
  by rewrite writtenEntry_reorderedActive.
Qed.

Lemma ranking_success_witness :
  (2 <= length (activeTasks threeTasks))%nat
  /\ Bypassed true (now morning) emptyWorld
  /\ Forall plainKey ["b"; "zz"; "a"]
  /\ runPrioritize
       (answering (Ok (Ranking ["b"; "zz"; "a"] (Some {["b" := "quick win"]}))))
       morning threeTasks true emptyWorld
     = (Ok (reorderedActive ["b"; "zz"; "a"] (Some {["b" := "quick win"]})
                            (activeTasks threeTasks)
            ++ otherTasks threeTasks),
        mkWorld
          (Some (SJson (JEntry (entryFor
             (reorderedActive ["b"; "zz"; "a"] (Some {["b" := "quick win"]})
                              (activeTasks threeTasks))
             (later morning)))))
          (events emptyWorld
             ++ [Asked (timeOfDay (hour morning)) (activeTasks threeTasks);
                 CacheWritten (entryFor
                   (reorderedActive ["b"; "zz"; "a"] (Some {["b" := "quick win"]})
                                    (activeTasks threeTasks))
                   (later morning))])
          false (Some (shown morning))).
Proof.
  assert (H2 : (2 <= length (activeTasks threeTasks))%nat) by (vm_compute; lia).
  assert (Hb : Bypassed true (now morning) emptyWorld) by (by left).
  assert (Hp : Forall plainKey ["b"; "zz"; "a"]) by by_evaluation.
  split; [exact H2 | split; [exact Hb | split; [exact Hp |]]].
  exact (ranking_success
           (answering (Ok (Ranking ["b"; "zz"; "a"] (Some {["b" := "quick win"]}))))
           morning threeTasks true emptyWorld ["b"; "zz"; "a"]
           (Some {["b" := "quick win"]}) H2 Hb eq_refl Hp).
Defined.

(** C4, as stated, fails: a rationale that is the empty string is present in
    the map, yet the record gets [null], because [|| null] replaces every
    falsy value. *)
Lemma empty_rationale_becomes_null :
  (runPrioritize
     (answering (Ok (Ranking ["b"; "a"] (Some {["a" := ""; "b" := "quick win"]}))))
     morning threeTasks true emptyWorld).1
  <> Ok (spec_reorderedActive ["b"; "a"] (Some {["a" := ""; "b" := "quick win"]})
                              (activeTasks threeTasks)
         ++ otherTasks threeTasks).
Proof. vm_compute. congruence. Qed.

(** A returned id that names a member of [Object.prototype] is found by the
    lookup although no submitted task carries it: it is not dropped, and a
    record without id enters the list. *)
Lemma inherited_key_is_not_dropped :
  (runPrioritize (answering (Ok (Ranking ["constructor"; "b"; "a"] None)))
                 morning threeTasks true emptyWorld).1
  = Ok [Bare Null; sample "b" "active"; sample "a" "active"; sample "d" "done"].
Proof. vm_compute. reflexivity. Qed.

(** ** What a partial ranking leaves out *)

Lemma rankedRows_ids (order : list string)
    (reasons : option (gmap string string)) (l : list Row) (r : Row) (k : string) :
  r ∈ rankedRows order reasons l -> row_id r = Some k -> k ∈ order.
Proof.
  induction order as [|k' order IH]; intros Hr Hid.
  - by apply elem_of_nil in Hr.
  - rewrite rankedRows_cons in Hr.
    destruct (getProp (byId l) k') as [r0|p|] eqn:Hg.
    + apply elem_of_cons in Hr as [->|Hr]; [|right; by apply IH].
      rewrite row_id_withReason in Hid. simpl in Hid.
      unfold getProp in Hg.
      destruct (byId l !! k') as [r1|] eqn:Hl; [|by case_bool_decide].
      injection Hg as ->. apply byId_lookup_Some in Hl as [_ Hk].
      rewrite Hid in Hk. simpl in Hk. subst. by left.
    + apply elem_of_cons in Hr as [->|Hr]; [|right; by apply IH].
      by rewrite row_id_withReason in Hid.
    + right. by apply IH.
Qed.

Lemma NoDup_ids_inj (l : list Row) (x y : Row) :
  NoDup (ids l) -> x ∈ l -> y ∈ l -> row_id x = row_id y -> x = y.
Proof.
  induction l as [|a l IH]; intros Hnd Hx Hy Heq.
  - by apply elem_of_nil in Hx.
  - unfold ids in Hnd. cbn [List.map] in Hnd. apply NoDup_cons in Hnd as [Ha Hnd].
    apply elem_of_cons in Hx as [->|Hx]; apply elem_of_cons in Hy as [->|Hy].
    + done.
    + exfalso. apply Ha. rewrite Heq. apply list_elem_of_In, List.in_map.
      by apply list_elem_of_In.
    + exfalso. apply Ha. rewrite <- Heq. apply list_elem_of_In, List.in_map.
      by apply list_elem_of_In.
    + by apply IH.
Qed.

Lemma writtenEntry_ids (sorted : list Row) (t : Z) :
  exists d, writtenEntry sorted t = mkEntry (Some d) (Some t)
            /\ map cached_id d = ids sorted.
Proof.
  eexists. split; [reflexivity|]. unfold ids. rewrite !List.map_map.
  by apply List.map_ext.
Qed.

(** C10: on the oracle-success path, a submitted active task whose id does
    not occur in the returned order has no active record in the returned
    list, and its id is in no pair of the cache entry written; when the ids
    of the task list are pairwise distinct, its id does not occur in the
    returned list at all. The task is dropped, not appended. *)
Theorem omitted_active_is_dropped (oracle : Oracle) (clk : Clock)
    (tasks : list Row) (force : bool) (w : World) (order : list string)
    (reasons : option (gmap string string)) (t : Row) (k : string) :
  (2 <= length (activeTasks tasks))%nat ->
  Bypassed force (now clk) w ->
  oracle (timeOfDay (hour clk)) (activeTasks tasks) = Ok (Ranking order reasons) ->
  t ∈ activeTasks tasks ->
  row_id t = Some k ->
  k ∉ order ->
  let r := runPrioritize oracle clk tasks force w in
  exists out d,
    r.1 = Ok out
    /\ cache r.2 = Some (SJson (JEntry (mkEntry (Some d) (Some (later clk)))))
    /\ (forall x, x ∈ out -> row_id x = Some k -> isActive x = false)
    /\ (Some k ∉ map cached_id d)
    /\ (NoDup (ids tasks) -> Some k ∉ ids out).
Proof.
  intros Hact Hby Ho Ht Hid Hk r. subst r.
  rewrite (runPrioritize_ranking _ _ _ _ _ Hact Hby order reasons) by done.
  set (ranked := rankedRows order reasons (activeTasks tasks)).
  destruct (writtenEntry_ids ranked (later clk)) as (d & Hd & Hids).
  assert (Hranked : forall x, x ∈ ranked -> row_id x <> Some k).
  { intros x Hx Hxk. apply Hk. by eapply rankedRows_ids. }
  exists (ranked ++ otherTasks tasks), d. simpl. rewrite Hd.
  split; [done|]. split; [done|]. split; [|split].
  - intros x Hx Hxk. apply elem_of_app in Hx as [Hx|Hx].
    + by destruct (Hranked x Hx).
    + by apply list_elem_of_filter in Hx as [Hx _].
  - rewrite Hids. intros Hin. apply list_elem_of_In, List.in_map_iff in Hin
      as (x & Hxk & Hx). apply list_elem_of_In in Hx. by destruct (Hranked x Hx).
  - intros Hnd Hin. apply list_elem_of_In, List.in_map_iff in Hin
      as (x & Hxk & Hx). apply list_elem_of_In, elem_of_app in Hx as [Hx|Hx].
    + by destruct (Hranked x Hx).
    + apply list_elem_of_filter in Hx as [Hx Hxt].
      apply list_elem_of_filter in Ht as [Ha Htt].
      assert (x = t) by (eapply NoDup_ids_inj; [done..|congruence]).
      subst. congruence.
Qed.

Lemma omitted_active_is_dropped_witness :
  let r := runPrioritize (answering (Ok (Ranking ["b"] None))) morning
                         threeTasks true emptyWorld in
  exists out d,
    r.1 = Ok out
    /\ cache r.2 = Some (SJson (JEntry (mkEntry (Some d) (Some (later morning)))))
    /\ (forall x, x ∈ out -> row_id x = Some "a" -> isActive x = false)
    /\ (Some "a" ∉ map cached_id d)
    /\ (NoDup (ids threeTasks) -> Some "a" ∉ ids out).
Proof.
  apply (omitted_active_is_dropped (answering (Ok (Ranking ["b"] None))) morning
           threeTasks true emptyWorld ["b"] None (sample "a" "active") "a").
  - vm_compute. lia.
  - by left.
  - reflexivity.
  - by_evaluation.
  - reflexivity.
  - by_evaluation.
Defined.

(** ** Reconciliation *)

Lemma applyCache_elem (d : list CacheItem) (tasks : list Row) (x : Row) :
  x ∈ applyCache d tasks ->
  row_id x = None \/ exists t, t ∈ tasks /\ row_id x = row_id t.
Proof.
  unfold applyCache. intros Hx. apply elem_of_app in Hx as [Hx|Hx].
  - apply list_elem_of_omap in Hx as (c & _ & Hc).
    unfold getProp in Hc.
    destruct (byId tasks !! propKey (cached_id c)) as [r0|] eqn:Hl.
    + injection Hc as <-. apply byId_lookup_Some in Hl as [Hin _].
      right. exists r0. split; [done|]. apply row_id_withReason_Own.
    + case_bool_decide; [|done]. injection Hc as <-. by left.
  - apply list_elem_of_filter in Hx as [_ Hx]. right. by exists x.
Qed.

Lemma map_fmap {A B} (f : A -> B) (l : list A) : map f l = f <$> l.
Proof. reflexivity. Qed.






(** A row without id is filed under the key [undefined], where a cached pair
    with that id finds it: the skipping needs a list of task records. *)
Lemma idless_row_is_found_under_undefined :
  let tasks := [Bare Null; sample "a" "active"; sample "b" "active"] in
  (Some "undefined" ∉ ids tasks)
  /\ applyCache [mkItem (Some "undefined") (Text "old"); mkItem (Some "b") Null] tasks
     <> applyCache [mkItem (Some "b") Null] tasks.
Proof. split; [by_evaluation|]. vm_compute. congruence. Qed.

(** C8: reconciling the same valid cache entry against an unchanged task
    list twice yields the same output both times: the first run returns a
    list and leaves the world as it was, and a second run from that world,
    at a later clock reading at which the entry is still valid, returns the
    same list. *)
Theorem reconciliation_repeatable (oracle1 oracle2 : Oracle) (clk1 clk2 : Clock)
    (tasks : list Row) (w : World) (d : list CacheItem) :
  (2 <= length (activeTasks tasks))%nat ->
  validEntry (now clk1) w d ->
  validEntry (now clk2) w d ->
  let r1 := runPrioritize oracle1 clk1 tasks false w in
  let r2 := runPrioritize oracle2 clk2 tasks false r1.2 in
  (exists out, r1.1 = Ok out /\ r2.1 = Ok out) /\ r1.2 = w /\ r2.2 = w.
Proof.
  intros Hact Hv1 Hv2 r1 r2. subst r2 r1.
  rewrite (runPrioritize_cache_hit oracle1 clk1 tasks w d) by done. simpl.
  rewrite (runPrioritize_cache_hit oracle2 clk2 tasks w d) by done. simpl.
  split; [by exists (applyCache d tasks) | done].
Qed.

Lemma reconciliation_repeatable_witness :
  let r1 := runPrioritize (answering Thrown) morning fourTasks false rankedWorld in
  let r2 := runPrioritize (answering (Ok Unusable)) (mkClock 9 60000 61000 61001)
                          fourTasks false r1.2 in
  (exists out, r1.1 = Ok out /\ r2.1 = Ok out)
  /\ r1.2 = rankedWorld /\ r2.2 = rankedWorld.
Proof.
  apply (reconciliation_repeatable (answering Thrown) (answering (Ok Unusable))
           morning (mkClock 9 60000 61000 61001) fourTasks rankedWorld rankedData).
  - vm_compute. lia.
  - exists 500. split; [reflexivity | vm_compute; reflexivity].
  - exists 500. split; [reflexivity | vm_compute; reflexivity].
Defined.

Lemma reconciled_cons (c : CacheItem) (d : list CacheItem) (tasks : list Row) :
  reconciled (c :: d) tasks
  = match cached_id c ≫= (fun k => taskWithId k tasks) with
    | Some t => withReason (cached_reason c) (Own t) :: reconciled d tasks
    | None => reconciled d tasks
    end.
Proof.
  unfold reconciled. cbn [omap list_omap].
  destruct (cached_id c) as [k|]; simpl; [|done].
  by destruct (taskWithId k tasks).
Qed.

(** On task records and cached pairs with plain ids, the code computes the
    reconciled sequence followed by every task that is not in the cache. *)
Lemma applyCache_plain (d : list CacheItem) (tasks : list Row) :
  Forall isTask tasks -> Forall plainItem d ->
  applyCache d tasks = reconciled d tasks ++ notCached d tasks.
Proof.
  intros Ht Hd. unfold applyCache. f_equal.
  - induction Hd as [|c d Hc Hd IH]; [done|].
    rewrite reconciled_cons. cbn [omap list_omap]. rewrite IH.
    unfold plainItem in Hc. destruct (cached_id c) as [k|]; [|done]. simpl.
    rewrite getProp_tasks by done. by destruct (taskWithId k tasks).
  - unfold notCached. apply list_filter_iff. intros x.
    by rewrite elem_of_list_to_set.
Qed.

Lemma reconciled_ids_sublist (d : list CacheItem) (tasks : list Row) :
  ids (reconciled d tasks) `sublist_of` map cached_id d.
Proof.
  induction d as [|c d IH]; [done|].
  rewrite reconciled_cons. cbn [List.map].
  destruct (cached_id c) as [k|] eqn:Hc; simpl; [|by apply sublist_cons].
  destruct (taskWithId k tasks) as [t|] eqn:Ht; [|by apply sublist_cons].
  apply taskWithId_Some in Ht as [_ Hid].
  unfold ids. cbn [List.map]. rewrite row_id_withReason_Own, Hid.
  by apply sublist_skip.
Qed.

Lemma taskWithId_unique (l : list Row) (t : Row) (k : string) :
  NoDup (ids l) -> t ∈ l -> row_id t = Some k -> taskWithId k l = Some t.
Proof.
  intros Hnd Ht Hid. destruct (taskWithId k l) as [t'|] eqn:Hl.
  - apply taskWithId_Some in Hl as [Hin Hid'].
    f_equal. eapply NoDup_ids_inj; [done..|congruence].
  - unfold taskWithId in Hl. apply last_None in Hl.
    assert (Hf : t ∈ filter (fun t => row_id t = Some k) l)
      by (by apply list_elem_of_filter).
    rewrite Hl in Hf. by apply elem_of_nil in Hf.
Qed.

Lemma ids_forget (l : list Row) : ids (map forget l) = ids l.
Proof.
  unfold ids. rewrite List.map_map. apply List.map_ext. apply row_id_forget.
Qed.

Lemma NoDup_forget (l : list Row) : NoDup (ids l) -> NoDup (map forget l).
Proof.
  intros H. apply (NoDup_fmap_1 row_id). rewrite <- map_fmap.
  fold (ids (map forget l)). by rewrite ids_forget.
Qed.

(** Up to their reasons, the reconciled records are the current tasks whose
    id is in the cache. *)
Lemma reconciled_perm (d : list CacheItem) (tasks : list Row) :
  Forall isTask tasks -> NoDup (ids tasks) -> NoDup (map cached_id d) ->
  map forget (reconciled d tasks)
  ≡ₚ map forget (filter (fun t => row_id t ∈ map cached_id d) tasks).
Proof.
  intros Ht Hnd Hd. apply NoDup_Permutation.
  - apply NoDup_forget. eapply sublist_NoDup; [exact Hd|].
    apply reconciled_ids_sublist.
  - apply NoDup_forget. eapply sublist_NoDup; [exact Hnd|].
    unfold ids. rewrite !map_fmap. apply fmap_sublist, sublist_filter.
  - intros x. rewrite !map_fmap, !list_elem_of_fmap. split.
    + intros (r & -> & Hr). apply list_elem_of_omap in Hr as (c & Hc & Hr).
      destruct (cached_id c) as [k|] eqn:Hk; simpl in Hr; [|done].
      destruct (taskWithId k tasks) as [t|] eqn:Hl; simpl in Hr; [|done].
      injection Hr as <-. apply taskWithId_Some in Hl as [Hin Hid].
      exists t. split; [apply forget_withReason_Own|].
      apply list_elem_of_filter. split; [|done].
      rewrite Hid, <- Hk, map_fmap. by apply list_elem_of_fmap_2.
    + intros (t & -> & Hin). apply list_elem_of_filter in Hin as [Hc Hin].
      rewrite map_fmap in Hc. apply list_elem_of_fmap in Hc as (c & Hid & Hc).
      pose proof (proj1 (Forall_forall _ _) Ht t Hin) as Htask.
      destruct t as [t|]; [|done].
      exists (withReason (cached_reason c) (Own (Full t))). split; [done|].
      apply list_elem_of_omap. exists c. split; [done|].
      rewrite <- Hid. simpl.
      by rewrite (taskWithId_unique tasks (Full t) (id t)).
Qed.

Lemma forget_activeTasks (l : list Row) :
  map forget (activeTasks l) = activeTasks (map forget l).
Proof.
  unfold activeTasks. induction l as [|x l IH]; [done|].
  cbn [List.map]. rewrite !filter_cons, isActive_forget.
  case_decide; [cbn [List.map]|]; by rewrite IH.
Qed.

(** C2, as the code has it: for a valid cache entry whose pairs carry
    pairwise distinct plain ids, and a current list of task records with
    pairwise distinct ids, the cache-hit result is the reconciled sequence
    followed by every current task that is not in the cache, active or not,
    in its current position; each current task, and so each active one,
    appears in it exactly once, unchanged but for its reason, and nothing is
    asked or written. *)
Theorem reconciliation_result (oracle : Oracle) (clk : Clock)
    (tasks : list Row) (w : World) (d : list CacheItem) :
  (2 <= length (activeTasks tasks))%nat ->
  validEntry (now clk) w d ->
  Forall isTask tasks ->
  NoDup (ids tasks) ->
  Forall plainItem d ->
  NoDup (map cached_id d) ->
  let out := reconciled d tasks ++ notCached d tasks in
  runPrioritize oracle clk tasks false w = (Ok out, w)
  /\ map forget out ≡ₚ map forget tasks
  /\ map forget (activeTasks out) ≡ₚ map forget (activeTasks tasks)
  /\ NoDup (ids out).
Proof.
  intros Hact Hv Ht Hnd Hd Hc out.
  assert (Hperm : map forget out ≡ₚ map forget tasks).
  { subst out. rewrite List.map_app, reconciled_perm by done.
    rewrite <- List.map_app, !map_fmap. apply fmap_Permutation.
    apply (filter_app_complement (fun t => row_id t ∈ map cached_id d)). }
  split; [|split; [done|split]].
  - rewrite (runPrioritize_cache_hit oracle clk tasks w d) by done.
    by rewrite applyCache_plain.
  - rewrite !forget_activeTasks. unfold activeTasks. by rewrite Hperm.
  - rewrite <- (ids_forget out). unfold ids. rewrite map_fmap, Hperm, <- map_fmap.
    fold (ids (map forget tasks)). by rewrite ids_forget.
Qed.

Lemma reconciliation_result_witness :
  let out := reconciled rankedData fourTasks ++ notCached rankedData fourTasks in
  runPrioritize (answering Thrown) morning fourTasks false rankedWorld
  = (Ok out, rankedWorld)
  /\ map forget out ≡ₚ map forget fourTasks
  /\ map forget (activeTasks out) ≡ₚ map forget (activeTasks fourTasks)
  /\ NoDup (ids out).
Proof.
  apply (reconciliation_result (answering Thrown) morning fourTasks rankedWorld
           rankedData).
  - vm_compute. lia.
  - exists 500. split; [reflexivity | vm_compute; reflexivity].
  - by_evaluation.
  - by_evaluation.
  - by_evaluation.
  - by_evaluation.
Defined.

(** C2, as stated, fails: the tasks that are not in the cache keep their
    current order, whatever their status. With the list [d (done), n, a, b]
    and the cached order [b, a], the code yields [b, a, d, n], while the
    stated order (newly added active tasks, then non-active ones) is
    [b, a, n, d]. *)
Lemma reconciliation_keeps_positions :
  (runPrioritize (answering Thrown) morning fourTasks false rankedWorld).1
  <> Ok (spec_reconcile rankedData fourTasks).
Proof. vm_compute. congruence. Qed.

(** A cache written from a ranking that repeats an id makes the record
    appear twice on the next cache hit. *)
Lemma repeated_id_appears_twice :
  let r1 := runPrioritize (answering (Ok (Ranking ["a"; "a"; "b"] None)))
                          morning threeTasks true emptyWorld in
  let r2 := runPrioritize (answering Thrown) (mkClock 9 3000 4000 4001)
                          threeTasks false r1.2 in
  exists out, r2.1 = Ok out
              /\ ids out = [Some "a"; Some "a"; Some "b"; Some "d"].
Proof. eexists. vm_compute. split; reflexivity. Qed.

(** ** Ids in the task list *)

Lemma otherTasks_complement (l : list Row) :
  otherTasks l = filter (fun t => ~ isActive t = true) l.
Proof.
  unfold otherTasks. apply list_filter_iff. intros x.
  by destruct (isActive x).
Qed.

Lemma partition_perm (l : list Row) : activeTasks l ++ otherTasks l ≡ₚ l.
Proof.
  rewrite otherTasks_complement.
  apply (filter_app_complement (fun t => isActive t = true)).
Qed.

Lemma taskWithId_found (l : list Row) (t : Row) (k : string) :
  t ∈ l -> row_id t = Some k ->
  exists t', taskWithId k l = Some t' /\ row_id t' = Some k.
Proof.
  intros Ht Hid. destruct (taskWithId k l) as [t'|] eqn:Hl.
  - exists t'. split; [done|]. by apply taskWithId_Some in Hl as [_ ?].
  - unfold taskWithId in Hl. apply last_None in Hl.
    assert (Hf : t ∈ filter (fun t => row_id t = Some k) l)
      by (by apply list_elem_of_filter).
    rewrite Hl in Hf. by apply elem_of_nil in Hf.
Qed.

(** When the oracle keeps to the submitted ids, the ranked list carries
    exactly the returned ids. *)
Lemma rankedRows_contract (order : list string)
    (reasons : option (gmap string string)) (l : list Row) :
  Forall isTask l ->
  Forall (fun k => Some k ∈ ids l) order ->
  ids (rankedRows order reasons l) = map Some order.
Proof.
  intros Hl Ho. induction Ho as [|k order Hk Ho IH]; [done|].
  rewrite rankedRows_cons. unfold getProp. rewrite byId_tasks by done.
  apply list_elem_of_In, List.in_map_iff in Hk as (t & Hid & Ht).
  apply list_elem_of_In in Ht.
  destruct (taskWithId_found l t k Ht Hid) as (t' & -> & Hid').
  unfold ids. cbn [List.map]. fold (ids (rankedRows order reasons l)).
  by rewrite row_id_withReason_Own, Hid', IH.
Qed.

Lemma ids_elem (l : list Row) (o : option string) :
  o ∈ ids l <-> exists t, t ∈ l /\ row_id t = o.
Proof.
  unfold ids. rewrite map_fmap, list_elem_of_fmap. split.
  - intros (t & -> & Ht). by exists t.
  - intros (t & Ht & <-). by exists t.
Qed.

(** A forced run keeps ids pairwise distinct when the oracle, if it ranks,
    returns submitted ids without repeating one. *)
Lemma runPrioritize_forced_ids (oracle : Oracle) (clk : Clock)
    (tasks : list Row) (w : World) :
  NoDup (ids tasks) ->
  (forall order reasons,
      oracle (timeOfDay (hour clk)) (activeTasks tasks)
      = Ok (Ranking order reasons) ->
      NoDup order /\ Forall (fun k => Some k ∈ ids (activeTasks tasks)) order) ->
  exists out w',
    runPrioritize oracle clk tasks true w = (Ok out, w') /\ NoDup (ids out).
Proof.
  intros Hnd Ho.
  destruct (decide (length (activeTasks tasks) < 2)%nat) as [Hlt|Hge].
  { exists tasks, w. split; [|done]. unfold runPrioritize.
    fold (activeTasks tasks). by rewrite bool_decide_true. }
  assert (Hact : (2 <= length (activeTasks tasks))%nat) by lia.
  assert (Hby : Bypassed true (now clk) w) by (by left).
  assert (Hothers : NoDup (ids (otherTasks tasks))).
  { eapply sublist_NoDup; [exact Hnd|]. unfold ids. rewrite !map_fmap.
    apply fmap_sublist, sublist_filter. }
  destruct (oracle (timeOfDay (hour clk)) (activeTasks tasks))
    as [[|order reasons]|] eqn:Ha.
  - eexists _, _. split; [by apply runPrioritize_unusable|].
    unfold ids. by rewrite map_fmap, partition_perm, <- map_fmap.
  - destruct (Ho order reasons eq_refl) as [Hord Hsub].
    eexists _, _. split; [by apply runPrioritize_ranking|].
    unfold ids. rewrite List.map_app.
    fold (ids (rankedRows order reasons (activeTasks tasks))).
    fold (ids (otherTasks tasks)).
    rewrite rankedRows_contract by (done || apply activeTasks_isTask).
    apply NoDup_app. split; [|split; [|done]].
    + rewrite map_fmap. by apply (NoDup_fmap_2 Some).
    + intros o Hin Hin'. rewrite map_fmap in Hin.
      apply list_elem_of_fmap in Hin as (k & -> & Hk).
      pose proof (proj1 (Forall_forall _ _) Hsub k Hk) as Hka.
      apply ids_elem in Hka as (t & Ht & Hid).
      apply ids_elem in Hin' as (t' & Ht' & Hid').
      apply list_elem_of_filter in Ht as [Ha1 Ht].
      apply list_elem_of_filter in Ht' as [Ha2 Ht'].
      assert (t = t') by (apply (NoDup_ids_inj tasks); [done..|congruence]).
      subst. congruence.
  - eexists _, _. split; [by apply runPrioritize_rejected|done].
Qed.

(** C9, as the code has it: [handleAdd] on a task built with [uid] keeps the
    ids of the task list pairwise distinct provided the generated id does
    not already occur in the list (nothing in the code checks it) and the
    oracle, when it answers with a ranking, returns ids of the submitted
    tasks without repeating one. *)
Theorem handleAdd_keeps_ids_distinct (oracle : Oracle) (clk : Clock)
    (rnd : string) (parsed : Draft) (createdAt : string)
    (tasks : list Row) (w : World) :
  NoDup (ids tasks) ->
  Some (uid rnd) ∉ ids tasks ->
  (forall order reasons,
      oracle (timeOfDay (hour clk))
             (activeTasks (newTask rnd parsed createdAt :: tasks))
      = Ok (Ranking order reasons) ->
      NoDup order
      /\ Forall (fun k => Some k ∈ ids (activeTasks
                            (newTask rnd parsed createdAt :: tasks))) order) ->
  NoDup (ids (handleAdd oracle clk (Some (newTask rnd parsed createdAt)) tasks w).1).
Proof.
  intros Hnd Hfresh Ho. unfold handleAdd.
  assert (Hupd : NoDup (ids (newTask rnd parsed createdAt :: tasks))).
  { unfold ids. cbn [List.map]. apply NoDup_cons. split; [exact Hfresh|exact Hnd]. }
  by destruct (runPrioritize_forced_ids oracle clk
                 (newTask rnd parsed createdAt :: tasks) w Hupd Ho)
    as (out & w' & -> & Hout).
Qed.

Lemma handleAdd_keeps_ids_distinct_witness :
  NoDup (ids (handleAdd
                (answering (Ok (Ranking ["b"; "n7k2q9x"; "a"] None))) morning
                (Some (newTask "0.n7k2q9xz4" sampleDraft "2024-05-01T09:00:00.000Z"))
                threeTasks emptyWorld).1).
Proof.
  apply handleAdd_keeps_ids_distinct.
  - by_evaluation.
  - by_evaluation.
  - intros order reasons H. injection H as <- <-.
    split; by_evaluation.
Defined.

(** C9, as stated, fails: [uid] draws its id at random and [handleAdd]
    inserts the task without looking at the ids already there. When the
    draw repeats the id of a stored task, the list holds that id twice. *)
Lemma uid_collision_duplicates_id :
  NoDup (ids [sample "abc" "done"])
  /\ ~ NoDup (ids (handleAdd (answering Thrown) morning
                     (Some (newTask "0.abc" sampleDraft "2024-05-01T09:00:00.000Z"))
                     [sample "abc" "done"] emptyWorld).1).
Proof.
  split; by_evaluation.
Qed.

(** The ids also stop being distinct without any collision, when the oracle
    repeats an id in its order. *)
Lemma repeated_order_duplicates_id :
  ~ NoDup (ids (handleAdd (answering (Ok (Ranking ["a"; "a"] None))) morning
                  (Some (newTask "0.n7k2q9xz4" sampleDraft "2024-05-01T09:00:00.000Z"))
                  threeTasks emptyWorld).1).
Proof. by_evaluation. Qed.

(** ** The end-to-end scenarios of the specification *)

(** Scenario A: two active tasks, no cache; the oracle is asked once and
    ranks [T2, T1] with a rationale for [T2] only. *)
Example scenario_A :
  let r := runPrioritize
             (answering (Ok (Ranking ["T2"; "T1"] (Some {["T2" := "quick win"]}))))
             morning [sample "T1" "active"; sample "T2" "active"] false emptyWorld in
  r.1 = Ok [withReason (Text "quick win") (Own (sample "T2" "active"));
            sample "T1" "active"]
  /\ cache r.2
     = Some (SJson (JEntry (mkEntry
               (Some [mkItem (Some "T2") (Text "quick win"); mkItem (Some "T1") Null])
               (Some 2000))))
  /\ events r.2
     = [Asked "morning" [sample "T1" "active"; sample "T2" "active"];
        CacheWritten (mkEntry
               (Some [mkItem (Some "T2") (Text "quick win"); mkItem (Some "T1") Null])
               (Some 2000))].
Proof. vm_compute. repeat split; reflexivity. Qed.

(** Scenarios B and C: within the hour, a task added since the ranking comes
    after the ranked ones, and a deleted one is left out; the oracle is not
    asked and the entry stays. Scenario D: after two hours the oracle is
    asked again. *)
Example scenarios_B_C_D :
  let oracle := answering (Ok (Ranking ["T2"; "T1"] (Some {["T2" := "quick win"]}))) in
  let wA := (runPrioritize oracle morning
               [sample "T1" "active"; sample "T2" "active"] false emptyWorld).2 in
  let rB := runPrioritize (answering Thrown) (mkClock 10 60000 61000 61001)
              [sample "T3" "active"; sample "T2" "active"; sample "T1" "active"]
              false wA in
  let rC := runPrioritize (answering Thrown) (mkClock 10 90000 91000 91001)
              [sample "T3" "active"; sample "T2" "active"] false rB.2 in
  let rD := runPrioritize oracle (mkClock 11 7202000 7203000 7203001)
              [sample "T3" "active"; sample "T2" "active"] false rC.2 in
  (exists out, rB.1 = Ok out /\ ids out = [Some "T2"; Some "T1"; Some "T3"])
  /\ (exists out, rC.1 = Ok out /\ ids out = [Some "T2"; Some "T3"])
  /\ rB.2 = wA /\ rC.2 = wA
  /\ length (events rD.2) = 4%nat.
Proof.
  vm_compute. split; [|split]; [eexists; split; reflexivity..|].
  repeat split; reflexivity.
Qed.

(** * Further properties of the code *)

(** ** Every path of [runPrioritize] *)

Lemma runPrioritize_few oracle clk tasks force w :
  (length (activeTasks tasks) < 2)%nat ->
  runPrioritize oracle clk tasks force w = (Ok tasks, w).
Proof.
  intros H. unfold runPrioritize. fold (activeTasks tasks).
  by rewrite bool_decide_true.
Qed.

Lemma runPrioritize_unreadable oracle clk tasks w :
  (2 <= length (activeTasks tasks))%nat ->
  Unreadable (now clk) w ->
  runPrioritize oracle clk tasks false w = (Thrown, w).
Proof.
  intros Hact Hc. unfold runPrioritize. rewrite enough_active by done.
  unfold bind at 1. cbn [negb].
  unfold storage.isPriorityCacheValid, storage.getPriorityCache, bind,
    readItem, getItem_or_null.
  destruct Hc as [Hc|[Hc|(a & Hc & Hlt)]]; rewrite Hc; [done..|].
  simpl. rewrite bool_decide_true by done. by rewrite Hc.
Qed.

Lemma Bypassed_readable t w :
  Bypassed false t w -> ~ Unreadable t w.
Proof.
  intros [Hf | [Hv | (e & He & _)]] Hc; [done| |].
  - rewrite isPriorityCacheValid_cases in Hv.
    destruct Hc as [Hc|[Hc|(a & Hc & Hlt)]]; rewrite Hc in Hv; [done..|].
    simpl in Hv. by rewrite bool_decide_true in Hv.
  - unfold getItem_or_null in He.
    destruct Hc as [Hc|[Hc|(a & Hc & Hlt)]]; by rewrite Hc in He.
Qed.

(** Without [force], the cache slot is unreadable, or usable, or passed
    over. *)
Lemma cache_classes t w :
  Unreadable t w \/ (exists d, validEntry t w d) \/ Bypassed false t w.
Proof.
  assert (Hno : (storage.isPriorityCacheValid t w).1 = Ok false ->
                Bypassed false t w) by (intros H; right; by left).
  rewrite isPriorityCacheValid_cases in Hno.
  destruct (cache w) as [[| |[|[dat [a|]]| |[a|]]]|] eqn:Hc;
    try (right; right; by apply Hno).
  - left. by left.
  - destruct (decide (t - a < 60 * 60 * 1000)) as [Hlt|Hnlt].
    + destruct dat as [d|].
      * right. left. exists d, a. by rewrite Hc.
      * right. right. right. right. exists (mkEntry None (Some a)).
        split; [|reflexivity]. unfold getItem_or_null. by rewrite Hc.
    + right. right. apply Hno. simpl. by rewrite bool_decide_false.
  - left. right. by left.
  - destruct (decide (t - a < 60 * 60 * 1000)) as [Hlt|Hnlt].
    + left. right. right. by exists a.
    + right. right. apply Hno. simpl. by rewrite bool_decide_false.
Qed.

(** The six ways a call can go. *)
Lemma runPrioritize_paths oracle clk tasks force w :
  let r := runPrioritize oracle clk tasks force w in
  let active := activeTasks tasks in
  let asked := Asked (timeOfDay (hour clk)) active in
  ((length active < 2)%nat /\ r = (Ok tasks, w))
  \/ ((2 <= length active)%nat /\ force = false /\ Unreadable (now clk) w
      /\ r = (Thrown, w))
  \/ ((2 <= length active)%nat /\ force = false
      /\ exists d, validEntry (now clk) w d /\ r = (Ok (applyCache d tasks), w))
  \/ ((2 <= length active)%nat /\ Bypassed force (now clk) w
      /\ r = (Ok tasks, mkWorld (cache w) (events w ++ [asked]) false
                                (lastPrioritized w)))
  \/ ((2 <= length active)%nat /\ Bypassed force (now clk) w
      /\ r = (Ok (active ++ otherTasks tasks), afterRanking clk active active w))
  \/ ((2 <= length active)%nat /\ Bypassed force (now clk) w
      /\ exists order reasons,
           r = (Ok (rankedRows order reasons active ++ otherTasks tasks),
                afterRanking clk active (rankedRows order reasons active) w)).
Proof.
  intros r active asked. subst r active asked.
  destruct (decide (length (activeTasks tasks) < 2)%nat) as [Hlt|Hge].
  { left. split; [done|]. by apply runPrioritize_few. }
  assert (Hact : (2 <= length (activeTasks tasks))%nat) by lia.
  assert (Hpath : Bypassed force (now clk) w ->
    (runPrioritize oracle clk tasks force w
     = (Ok tasks, mkWorld (cache w)
         (events w ++ [Asked (timeOfDay (hour clk)) (activeTasks tasks)])
         false (lastPrioritized w)))
    \/ runPrioritize oracle clk tasks force w
       = (Ok (activeTasks tasks ++ otherTasks tasks),
          afterRanking clk (activeTasks tasks) (activeTasks tasks) w)
    \/ exists order reasons,
         runPrioritize oracle clk tasks force w
         = (Ok (rankedRows order reasons (activeTasks tasks) ++ otherTasks tasks),
            afterRanking clk (activeTasks tasks)
              (rankedRows order reasons (activeTasks tasks)) w)).
  { intros Hby.
    destruct (oracle (timeOfDay (hour clk)) (activeTasks tasks))
      as [[|order reasons]|] eqn:Ho.
    - right. left. by apply runPrioritize_unusable.
    - right. right. exists order, reasons. by apply runPrioritize_ranking.
    - left. by apply runPrioritize_rejected. }
  match goal with
  | |- ?G => assert (Hfrom : Bypassed force (now clk) w -> G)
  end.
  { intros Hby. destruct (Hpath Hby) as [H|[H|H]].
    - right; right; right; left. exact (conj Hact (conj Hby H)).
    - right; right; right; right; left. exact (conj Hact (conj Hby H)).
    - do 5 right. exact (conj Hact (conj Hby H)). }
  destruct force; [apply Hfrom; by left|].
  destruct (cache_classes (now clk) w) as [Hc|[[d Hv]|Hby]].
  - right. left. repeat split; [done..|]. by apply runPrioritize_unreadable.
  - right. right. left. repeat split; [done..|]. exists d.
    split; [done|]. by apply runPrioritize_cache_hit.
  - by apply Hfrom.
Qed.

(** X1: a call is rejected exactly when two tasks or more are active, the
    refresh is not forced and the cache cannot be read: the stored text does
    not parse, or the stamp of the stored value does not convert to a
    number, or the stamp is less than one hour old and the data cannot be
    walked. The rejection happens before anything is asked or changed. A
    forced call never rejects, whatever the cache holds and whatever the
    oracle does. *)
Theorem runPrioritize_rejects_iff (oracle : Oracle) (clk : Clock)
    (tasks : list Row) (force : bool) (w : World) :
  let r := runPrioritize oracle clk tasks force w in
  (r.1 = Thrown <->
     (2 <= length (activeTasks tasks))%nat /\ force = false
     /\ (cache w = Some SBroken
         \/ cache w = Some (SJson JBadStamp)
         \/ exists a, cache w = Some (SJson (JBadData (Some a)))
                      /\ now clk - a < 60 * 60 * 1000))
  /\ (r.1 = Thrown <-> r = (Thrown, w))
  /\ (runPrioritize oracle clk tasks true w).1 <> Thrown.
Proof.
  intros r. subst r. fold (Unreadable (now clk) w).
  assert (Hforced : (runPrioritize oracle clk tasks true w).1 <> Thrown).
  { destruct (runPrioritize_paths oracle clk tasks true w)
      as [[Hlt ->]|[(Hact & Hf & Hc & ->)|[(Hact & Hf & d & Hv & ->)|
          [(Hact & Hby & ->)|[(Hact & Hby & ->)|(Hact & Hby & o & rs & ->)]]]]];
      done. }
  destruct (runPrioritize_paths oracle clk tasks force w)
    as [[Hlt ->]|[(Hact & Hf & Hc & ->)|[(Hact & Hf & d & Hv & ->)|
        [(Hact & Hby & ->)|[(Hact & Hby & ->)|(Hact & Hby & o & rs & ->)]]]]];
    simpl;
    (split; [split; [done | intros (H2 & Hf' & Hc')] | split; [by split|]]);
    try done; try lia; try congruence.
  - destruct Hv as (a & Ha & _).
    destruct Hc' as [Hc'|[Hc'|(a' & Hc' & _)]]; congruence.
  - subst. by destruct (Bypassed_readable _ _ Hby).
  - subst. by destruct (Bypassed_readable _ _ Hby).
  - subst. by destruct (Bypassed_readable _ _ Hby).
Qed.

(** X2: whatever the inputs, a call does one of three things to the world:
    nothing; or it asks the oracle once, about the active tasks, and writes
    nothing; or it asks once and then writes the cache once, stamped with the
    clock, and records the time of the ranking. In the last two cases the
    busy flag is down when the call ends. *)
Theorem runPrioritize_effects (oracle : Oracle) (clk : Clock)
    (tasks : list Row) (force : bool) (w : World) :
  let w' := (runPrioritize oracle clk tasks force w).2 in
  let asked := Asked (timeOfDay (hour clk)) (activeTasks tasks) in
  w' = w
  \/ w' = mkWorld (cache w) (events w ++ [asked]) false (lastPrioritized w)
  \/ exists c,
       w' = mkWorld (Some (SJson (JEntry c)))
                    (events w ++ [asked; CacheWritten c])
                    false (Some (shown clk))
       /\ at_ c = Some (later clk).
Proof.
  intros w' asked. subst w' asked.
  destruct (runPrioritize_paths oracle clk tasks force w)
    as [[Hlt ->]|[(Hact & Hf & Hc & ->)|[(Hact & Hf & d & Hv & ->)|
        [(Hact & Hby & ->)|[(Hact & Hby & ->)|(Hact & Hby & o & rs & ->)]]]]];
    simpl; [by left..|by right; left| |].
  - right. right. by eexists.
  - right. right. by eexists.
Qed.

Lemma rankedRows_origin (order : list string)
    (reasons : option (gmap string string)) (l : list Row) (r : Row) :
  r ∈ rankedRows order reasons l -> isTask r ->
  exists t, t ∈ l /\ forget r = forget t.
Proof.
  induction order as [|k order IH]; intros Hr Htask.
  - by apply elem_of_nil in Hr.
  - rewrite rankedRows_cons in Hr. unfold getProp in Hr.
    destruct (byId l !! k) as [r0|] eqn:Hl.
    + apply elem_of_cons in Hr as [->|Hr]; [|by apply IH].
      apply byId_lookup_Some in Hl as [Hin _].
      exists r0. split; [done|]. apply forget_withReason_Own.
    + case_bool_decide; [|by apply IH].
      apply elem_of_cons in Hr as [->|Hr]; [done|by apply IH].
Qed.

Lemma rankedRows_origin_plain (order : list string)
    (reasons : option (gmap string string)) (l : list Row) (r : Row) :
  Forall plainKey order -> r ∈ rankedRows order reasons l ->
  exists t, t ∈ l /\ forget r = forget t.
Proof.
  induction order as [|k order IH]; intros Hplain Hr.
  - by apply elem_of_nil in Hr.
  - apply Forall_cons in Hplain as [Hk Hplain].
    rewrite rankedRows_cons in Hr. unfold getProp in Hr.
    destruct (byId l !! k) as [r0|] eqn:Hl.
    + apply elem_of_cons in Hr as [->|Hr]; [|by apply IH].
      apply byId_lookup_Some in Hl as [Hin _].
      exists r0. split; [done|]. apply forget_withReason_Own.
    + rewrite bool_decide_false in Hr by exact Hk. by apply IH.
Qed.

Lemma applyCache_origin_plain (d : list CacheItem) (tasks : list Row) (r : Row) :
  (forall c k, c ∈ d -> cached_id c = Some k -> plainKey k) ->
  r ∈ applyCache d tasks ->
  exists t, t ∈ tasks /\ forget r = forget t.
Proof.
  unfold applyCache. intros Hplain Hr. apply elem_of_app in Hr as [Hr|Hr].
  - apply list_elem_of_omap in Hr as (c & Hin & Hc). unfold getProp in Hc.
    destruct (byId tasks !! propKey (cached_id c)) as [r0|] eqn:Hl.
    + injection Hc as <-. apply byId_lookup_Some in Hl as [Hr0 _].
      exists r0. split; [done|]. apply forget_withReason_Own.
    + rewrite bool_decide_false in Hc; [done|].
      destruct (cached_id c) as [k|] eqn:Hk; [by apply (Hplain c)|].
      by_evaluation.
  - apply list_elem_of_filter in Hr as [_ Hr]. by exists r.
Qed.

(** On the oracle path, every row returned comes from the input when the
    ids of a ranking are plain. *)
Lemma oracle_path_origin oracle clk tasks force w out (r : Row) :
  (2 <= length (activeTasks tasks))%nat ->
  Bypassed force (now clk) w ->
  (forall order reasons,
     oracle (timeOfDay (hour clk)) (activeTasks tasks) = Ok (Ranking order reasons) ->
     Forall plainKey order) ->
  (runPrioritize oracle clk tasks force w).1 = Ok out ->
  r ∈ out ->
  exists t, t ∈ tasks /\ forget r = forget t.
Proof.
  intros Hact Hby Horder Hout Hr.
  destruct (oracle (timeOfDay (hour clk)) (activeTasks tasks))
    as [[|order reasons]|] eqn:Ho.
  - rewrite (runPrioritize_unusable oracle clk tasks force w Hact Hby Ho) in Hout.
    injection Hout as <-. exists r. split; [|done].
    apply elem_of_app in Hr as [Hr|Hr];
      by apply list_elem_of_filter in Hr as [_ Hr].
  - rewrite (runPrioritize_ranking oracle clk tasks force w Hact Hby _ _ Ho) in Hout.
    injection Hout as <-. apply elem_of_app in Hr as [Hr|Hr].
    + destruct (rankedRows_origin_plain order reasons _ r (Horder _ _ eq_refl) Hr)
        as (t & Ht & Hft).
      exists t. split; [|done]. by apply list_elem_of_filter in Ht as [_ Ht].
    + exists r. split; [|done]. by apply list_elem_of_filter in Hr as [_ Hr].
  - rewrite (runPrioritize_rejected oracle clk tasks force w Hact Hby Ho) in Hout.
    injection Hout as <-. by exists r.
Qed.

(** X3: provided that no id of a valid cache entry and no id of the oracle's
    ranking is the name of a member of [Object.prototype], every row of the
    list that comes back, on every path, is a row of the input, unchanged
    but for its priorityReason: under that proviso the code makes up no row
    and alters no other field. *)
Theorem runPrioritize_never_invents (oracle : Oracle) (clk : Clock)
    (tasks : list Row) (force : bool) (w : World) (out : list Row) (r : Row) :
  (forall d c k, validEntry (now clk) w d -> c ∈ d -> cached_id c = Some k ->
                 plainKey k) ->
  (forall order reasons,
     oracle (timeOfDay (hour clk)) (activeTasks tasks) = Ok (Ranking order reasons) ->
     Forall plainKey order) ->
  (runPrioritize oracle clk tasks force w).1 = Ok out ->
  r ∈ out ->
  exists t, t ∈ tasks /\ forget r = forget t.
Proof.
  intros Hcache Horder Hout Hr.
  destruct (decide (length (activeTasks tasks) < 2)%nat) as [Hlt|Hge].
  { rewrite runPrioritize_few in Hout by done. injection Hout as <-.
    by exists r. }
  assert (Hact : (2 <= length (activeTasks tasks))%nat) by lia.
  destruct force.
  { apply (oracle_path_origin oracle clk tasks true w out); try done. by left. }
  destruct (cache_classes (now clk) w) as [Hc|[[d Hv]|Hby]].
  - by rewrite runPrioritize_unreadable in Hout.
  - rewrite (runPrioritize_cache_hit oracle clk tasks w d) in Hout by done.
    injection Hout as <-. apply (applyCache_origin_plain d); [|done].
    intros c k. by apply Hcache.
  - by apply (oracle_path_origin oracle clk tasks false w out).
Qed.

Lemma runPrioritize_never_invents_witness :
  exists t, t ∈ threeTasks
            /\ forget (withReason (Text "first") (Own (sample "b" "active")))
               = forget t.
Proof.
  apply (runPrioritize_never_invents
           (answering (Ok (Ranking ["b"; "ghost"] (Some {["b" := "first"]}))))
           morning threeTasks true rankedWorld
           [withReason (Text "first") (Own (sample "b" "active")); sample "d" "done"]
           (withReason (Text "first") (Own (sample "b" "active")))).
  - intros d c k (a & Hc & _) Hin Hk. injection Hc as <- _.
    repeat (apply elem_of_cons in Hin as [->|Hin]);
      [injection Hk as <-; by_evaluation..|by apply elem_of_nil in Hin].
  - intros order reasons Ho. injection Ho as <- _. by_evaluation.
  - vm_compute. reflexivity.
  - by_evaluation.
Defined.

Lemma no_elem_nil {A} (l : list A) : (forall x, x ∈ l -> False) -> l = [].
Proof. destruct l as [|a l]; [done|]. intros H. destruct (H a). by left. Qed.

Lemma otherTasks_app (l k : list Row) :
  otherTasks (l ++ k) = otherTasks l ++ otherTasks k.
Proof. apply filter_app. Qed.

Lemma otherTasks_active (l : list Row) : otherTasks (activeTasks l) = [].
Proof.
  apply no_elem_nil. intros x Hx.
  apply list_elem_of_filter in Hx as [Hn Hx].
  apply list_elem_of_filter in Hx as [Ha _]. congruence.
Qed.

Lemma otherTasks_idem (l : list Row) : otherTasks (otherTasks l) = otherTasks l.
Proof.
  unfold otherTasks. rewrite list_filter_filter. apply list_filter_iff.
  intros x. tauto.
Qed.

Lemma rankedRows_active (order : list string)
    (reasons : option (gmap string string)) (l : list Row) (r : Row) :
  r ∈ rankedRows order reasons (activeTasks l) -> isTask r -> isActive r = true.
Proof.
  intros Hr Htask.
  destruct (rankedRows_origin order reasons _ r Hr Htask) as (t & Ht & Hft).
  apply list_elem_of_filter in Ht as [Ha _].
  by rewrite <- isActive_forget, Hft, isActive_forget.
Qed.

(** X4: a forced call always returns a list, and the task records that are
    not active come back as they were: none lost, none altered, none
    duplicated, in the same relative order. So it is for the list
    [handleReprioritize] stores. *)
Theorem forced_run_keeps_other_tasks (oracle : Oracle) (clk : Clock)
    (tasks : list Row) (w : World) :
  exists out,
    (runPrioritize oracle clk tasks true w).1 = Ok out
    /\ (handleReprioritize oracle clk tasks w).1 = out
    /\ filter isTask (otherTasks out) = filter isTask (otherTasks tasks).
Proof.
  unfold handleReprioritize.
  destruct (runPrioritize_paths oracle clk tasks true w)
    as [[Hlt ->]|[(Hact & Hf & Hc & ->)|[(Hact & Hf & d & Hv & ->)|
        [(Hact & Hby & ->)|[(Hact & Hby & ->)|(Hact & Hby & o & rs & ->)]]]]];
    try done; eexists; (split; [reflexivity|]); (split; [reflexivity|]);
    try done.
  - by rewrite otherTasks_app, otherTasks_active, otherTasks_idem.
  - rewrite otherTasks_app, filter_app, otherTasks_idem.
    rewrite (no_elem_nil (filter isTask _)); [done|].
    intros x Hx. apply list_elem_of_filter in Hx as [Htask Hx].
    apply list_elem_of_filter in Hx as [Hn Hx].
    apply rankedRows_active in Hx; [congruence|done].
Qed.

(** ** The cache reproduces the list it was written from *)

Lemma omap_ext_in {A B} (f g : A -> option B) (l : list A) :
  (forall x, x ∈ l -> f x = g x) -> omap f l = omap g l.
Proof.
  induction l as [|a l IH]; intros H; [done|]. cbn [omap list_omap].
  rewrite (H a) by (by left). rewrite IH; [done|].
  intros x Hx. apply H. by right.
Qed.

Lemma filter_all {A} (P : A -> Prop) `{forall x, Decision (P x)} (l : list A) :
  (forall x, x ∈ l -> P x) -> filter P l = l.
Proof.
  induction l as [|a l IH]; intros Hl; [done|].
  rewrite filter_cons_True by (apply Hl; by left).
  f_equal. apply IH. intros x Hx. apply Hl. by right.
Qed.

Lemma filter_none {A} (P : A -> Prop) `{forall x, Decision (P x)} (l : list A) :
  (forall x, x ∈ l -> ~ P x) -> filter P l = [].
Proof.
  intros Hl. apply no_elem_nil. intros x Hx.
  apply list_elem_of_filter in Hx as [HP Hx]. by apply (Hl x).
Qed.

Lemma withReason_row_reason (r : Row) : withReason (row_reason r) (Own r) = r.
Proof. by destruct r as [[]|]. Qed.

Lemma withReason_twice (x : Reason) (r : Row) :
  withReason x (Own (withReason x (Own r))) = withReason x (Own r).
Proof. by destruct r as [[]|]. Qed.

Lemma isTask_withReason_Own (x : Reason) (r : Row) :
  isTask (withReason x (Own r)) <-> isTask r.
Proof. by destruct r. Qed.

Lemma isTask_row_id (r : Row) : isTask r -> exists k, row_id r = Some k.
Proof. destruct r as [t|]; [|done]. intros _. by exists (id t). Qed.

(** Reading back, against the list [out], the pairs written from rows of
    [out] gives those rows again. *)
Lemma reconciled_written (l out : list Row) :
  NoDup (ids out) ->
  (forall r, r ∈ l -> r ∈ out /\ isTask r) ->
  reconciled (map (fun r => mkItem (row_id r) (row_reason r)) l) out = l.
Proof.
  intros Hnd. induction l as [|r l IH]; intros Hl; [done|].
  cbn [List.map]. rewrite reconciled_cons. cbn [cached_id cached_reason].
  destruct (Hl r) as [Hin Htask]; [by left|].
  destruct (isTask_row_id r Htask) as [k Hk]. rewrite Hk. simpl.
  rewrite (taskWithId_unique out r k) by done.
  rewrite withReason_row_reason, IH; [done|].
  intros x Hx. apply Hl. by right.
Qed.

Lemma applyCache_written (ranked others : list Row) :
  Forall isTask (ranked ++ others) ->
  NoDup (ids (ranked ++ others)) ->
  Forall (fun r => plainItem (mkItem (row_id r) (row_reason r))) ranked ->
  applyCache (map (fun r => mkItem (row_id r) (row_reason r)) ranked)
             (ranked ++ others)
  = ranked ++ others.
Proof.
  intros Ht Hnd Hp.
  rewrite applyCache_plain; [|done|by apply Forall_fmap].
  assert (Hids : map cached_id (map (fun r => mkItem (row_id r) (row_reason r)) ranked)
                 = ids ranked).
  { unfold ids. rewrite List.map_map. by apply List.map_ext. }
  f_equal.
  - apply reconciled_written; [done|]. intros r Hr. split.
    + apply elem_of_app. by left.
    + apply (proj1 (Forall_forall _ _) Ht). apply elem_of_app. by left.
  - unfold notCached. rewrite Hids, filter_app.
    unfold ids in Hnd. rewrite List.map_app in Hnd.
    apply NoDup_app in Hnd as (_ & Hdisj & _).
    rewrite filter_none, filter_all; [done| |].
    + intros x Hx Hin. apply (Hdisj (row_id x)); [done|].
      apply list_elem_of_In, List.in_map. by apply list_elem_of_In.
    + intros x Hx Hn. apply Hn.
      apply list_elem_of_In, List.in_map. by apply list_elem_of_In.
Qed.

Lemma reorderedActive_elem (order : list string)
    (reasons : option (gmap string string)) (l : list Row) (r : Row) :
  r ∈ reorderedActive order reasons l ->
  exists k t, k ∈ order /\ t ∈ l /\ row_id t = Some k
              /\ r = withReason (rationale reasons k) (Own t).
Proof.
  unfold reorderedActive. intros Hr.
  apply list_elem_of_omap in Hr as (k & Hk & Hr).
  destruct (taskWithId k l) as [t|] eqn:Ht; simpl in Hr; [|done].
  injection Hr as <-. apply taskWithId_Some in Ht as [Hin Hid].
  by exists k, t.
Qed.

Lemma reorderedActive_ids_sublist (order : list string)
    (reasons : option (gmap string string)) (l : list Row) :
  ids (reorderedActive order reasons l) `sublist_of` map Some order.
Proof.
  unfold reorderedActive. induction order as [|k order IH]; [done|].
  cbn [omap list_omap List.map].
  destruct (taskWithId k l) as [t|] eqn:Ht; simpl; [|by apply sublist_cons].
  apply taskWithId_Some in Ht as [_ Hid].
  unfold ids. cbn [List.map]. rewrite row_id_withReason_Own, Hid.
  by apply sublist_skip.
Qed.

(** The list a successful ranking returns: task records with pairwise
    distinct ids, the ranked ones carrying plain ids. *)
Lemma ranked_list_wf (order : list string)
    (reasons : option (gmap string string)) (tasks : list Row) :
  Forall isTask tasks -> NoDup (ids tasks) ->
  NoDup order -> Forall plainKey order ->
  let sorted := reorderedActive order reasons (activeTasks tasks) in
  Forall isTask (sorted ++ otherTasks tasks)
  /\ NoDup (ids (sorted ++ otherTasks tasks))
  /\ Forall (fun r => plainItem (mkItem (row_id r) (row_reason r))) sorted.
Proof.
  intros Ht Hnd Hord Hplain sorted. subst sorted. split; [|split].
  - apply Forall_app. split.
    + apply Forall_forall. intros r Hr.
      apply reorderedActive_elem in Hr as (k & t & _ & Hin & _ & ->).
      apply isTask_withReason_Own.
      apply (proj1 (Forall_forall _ _) (activeTasks_isTask tasks)). done.
    + apply Forall_forall. intros r Hr.
      apply list_elem_of_filter in Hr as [_ Hr].
      by apply (proj1 (Forall_forall _ _) Ht).
  - unfold ids. rewrite List.map_app. apply NoDup_app. split; [|split].
    + eapply sublist_NoDup; [|apply reorderedActive_ids_sublist].
      rewrite map_fmap. by apply (NoDup_fmap_2 Some).
    + intros o Hin Hin'. apply ids_elem in Hin as (r & Hr & Hid).
      apply reorderedActive_elem in Hr as (k & t & _ & Ht' & Hk & ->).
      rewrite row_id_withReason_Own in Hid.
      apply ids_elem in Hin' as (t' & Ht'' & Hid').
      apply list_elem_of_filter in Ht' as [Ha1 Ht'].
      apply list_elem_of_filter in Ht'' as [Ha2 Ht''].
      assert (t = t') by (apply (NoDup_ids_inj tasks); [done..|congruence]).
      subst. congruence.
    + eapply sublist_NoDup; [exact Hnd|]. unfold ids. rewrite !map_fmap.
      apply fmap_sublist, sublist_filter.
  - apply Forall_forall. intros r Hr.
    apply reorderedActive_elem in Hr as (k & t & Hk & _ & Hid & ->).
    unfold plainItem. cbn [cached_id]. rewrite row_id_withReason_Own, Hid.
    by apply (proj1 (Forall_forall _ _) Hplain).
Qed.

(** X5: after a forced call that got a ranking (ids not repeated, none the
    name of a member of [Object.prototype]) on task records with pairwise
    distinct ids, an unforced call on the returned list, made while the
    written entry is less than one hour old, returns that list again and
    leaves the world alone: the cache written reproduces the order it was
    written from. *)
Theorem ranking_is_stable (oracle oracle' : Oracle) (clk clk' : Clock)
    (tasks : list Row) (w : World) (order : list string)
    (reasons : option (gmap string string)) :
  Forall isTask tasks ->
  NoDup (ids tasks) ->
  oracle (timeOfDay (hour clk)) (activeTasks tasks) = Ok (Ranking order reasons) ->
  NoDup order ->
  Forall plainKey order ->
  now clk' - later clk < 60 * 60 * 1000 ->
  let r1 := runPrioritize oracle clk tasks true w in
  exists out,
    r1.1 = Ok out
    /\ runPrioritize oracle' clk' out false r1.2 = (Ok out, r1.2).
Proof.
  intros Ht Hnd Ho Hord Hplain Hfresh r1. subst r1.
  destruct (decide (length (activeTasks tasks) < 2)%nat) as [Hlt|Hge].
  { rewrite runPrioritize_few by done. exists tasks. split; [done|].
    by apply runPrioritize_few. }
  assert (Hact : (2 <= length (activeTasks tasks))%nat) by lia.
  assert (Hby : Bypassed true (now clk) w) by (by left).
  rewrite (runPrioritize_ranking _ _ _ _ _ Hact Hby order reasons Ho).
  rewrite rankedRows_plain by (done || apply activeTasks_isTask).
  set (sorted := reorderedActive order reasons (activeTasks tasks)).
  exists (sorted ++ otherTasks tasks). split; [done|]. cbn [fst snd].
  destruct (decide (length (activeTasks (sorted ++ otherTasks tasks)) < 2)%nat)
    as [Hlt'|Hge']; [by apply runPrioritize_few|].
  destruct (ranked_list_wf order reasons tasks Ht Hnd Hord Hplain)
    as (Hwf & Hnd' & Hp).
  rewrite (runPrioritize_cache_hit _ _ _ _
             (map (fun r => mkItem (row_id r) (row_reason r)) sorted)).
  - by rewrite applyCache_written.
  - lia.
  - exists (later clk). split; [|done]. unfold afterRanking. cbn [cache].
    subst sorted. by rewrite writtenEntry_reorderedActive.
Qed.

Lemma ranking_is_stable_witness :
  let r1 := runPrioritize
              (answering (Ok (Ranking ["b"; "a"] (Some {["b" := "quick win"]}))))
              morning threeTasks true emptyWorld in
  exists out,
    r1.1 = Ok out
    /\ runPrioritize (answering Thrown) (mkClock 10 60000 61000 61001) out false r1.2
       = (Ok out, r1.2).
Proof.
  apply (ranking_is_stable
           (answering (Ok (Ranking ["b"; "a"] (Some {["b" := "quick win"]}))))
           (answering Thrown) morning (mkClock 10 60000 61000 61001)
           threeTasks emptyWorld ["b"; "a"] (Some {["b" := "quick win"]})).
  - by_evaluation.
  - by_evaluation.
  - reflexivity.
  - by_evaluation.
  - by_evaluation.
  - vm_compute. reflexivity.
Defined.

(** ** Reconciling twice *)

Lemma reconcile_perm (d : list CacheItem) (tasks : list Row) :
  Forall isTask tasks -> NoDup (ids tasks) -> NoDup (map cached_id d) ->
  map forget (reconciled d tasks ++ notCached d tasks) ≡ₚ map forget tasks.
Proof.
  intros Ht Hnd Hc. rewrite List.map_app, reconciled_perm by done.
  rewrite <- List.map_app, !map_fmap. apply fmap_Permutation.
  apply (filter_app_complement (fun t => row_id t ∈ map cached_id d)).
Qed.

Lemma reconcile_ids_perm (d : list CacheItem) (tasks : list Row) :
  Forall isTask tasks -> NoDup (ids tasks) -> NoDup (map cached_id d) ->
  ids (reconciled d tasks ++ notCached d tasks) ≡ₚ ids tasks.
Proof.
  intros Ht Hnd Hc. pose proof (reconcile_perm d tasks Ht Hnd Hc) as Hp.
  apply (fmap_Permutation row_id) in Hp.
  change (ids (map forget (reconciled d tasks ++ notCached d tasks))
          ≡ₚ ids (map forget tasks)) in Hp.
  by rewrite !ids_forget in Hp.
Qed.

Lemma reconciled_elem (d : list CacheItem) (tasks : list Row) (r : Row) :
  r ∈ reconciled d tasks ->
  exists c k t, c ∈ d /\ cached_id c = Some k /\ taskWithId k tasks = Some t
                /\ r = withReason (cached_reason c) (Own t).
Proof.
  unfold reconciled. intros Hr. apply list_elem_of_omap in Hr as (c & Hc & Hr).
  destruct (cached_id c) as [k|] eqn:Hk; simpl in Hr; [|done].
  destruct (taskWithId k tasks) as [t|] eqn:Ht; simpl in Hr; [|done].
  injection Hr as <-. by exists c, k, t.
Qed.

(** Reconciling the reconciled list changes nothing. *)
Lemma applyCache_twice (d : list CacheItem) (tasks : list Row) :
  Forall isTask tasks -> NoDup (ids tasks) ->
  Forall plainItem d -> NoDup (map cached_id d) ->
  let out := reconciled d tasks ++ notCached d tasks in
  applyCache d out = out.
Proof.
  intros Ht Hnd Hd Hc out.
  assert (Hout : Forall isTask out).
  { apply Forall_app. split; apply Forall_forall; intros r Hr.
    - apply reconciled_elem in Hr as (c & k & t & _ & _ & Hl & ->).
      apply isTask_withReason_Own. apply taskWithId_Some in Hl as [Hin _].
      by apply (proj1 (Forall_forall _ _) Ht).
    - apply list_elem_of_filter in Hr as [_ Hr].
      by apply (proj1 (Forall_forall _ _) Ht). }
  assert (Hperm : ids out ≡ₚ ids tasks) by (by apply reconcile_ids_perm).
  assert (Hndo : NoDup (ids out)) by (by rewrite Hperm).
  rewrite applyCache_plain by done. subst out. f_equal.
  - unfold reconciled at 1 3. apply omap_ext_in. intros c Hcin.
    pose proof (proj1 (Forall_forall _ _) Hd c Hcin) as Hpc.
    unfold plainItem in Hpc. destruct (cached_id c) as [k|] eqn:Hk; [|done].
    simpl. destruct (taskWithId k tasks) as [t|] eqn:Hl; simpl.
    + assert (Hin : withReason (cached_reason c) (Own t)
                    ∈ reconciled d tasks ++ notCached d tasks).
      { apply elem_of_app. left. unfold reconciled.
        apply list_elem_of_omap. exists c. split; [done|].
        by rewrite Hk; simpl; rewrite Hl. }
      apply taskWithId_Some in Hl as [_ Hid].
      rewrite (taskWithId_unique _ (withReason (cached_reason c) (Own t)) k);
        [|done|done|by rewrite row_id_withReason_Own].
      simpl. by rewrite withReason_twice.
    + destruct (taskWithId k (reconciled d tasks ++ notCached d tasks))
        as [r|] eqn:Hl'; [|done].
      apply taskWithId_Some in Hl' as [Hin Hid].
      assert (Hk' : Some k ∈ ids tasks).
      { rewrite <- Hperm. apply ids_elem. by exists r. }
      apply ids_elem in Hk' as (t & Ht' & Hid').
      destruct (taskWithId_found tasks t k Ht' Hid') as (t' & Hf & _).
      congruence.
  - unfold notCached at 1. rewrite filter_app. rewrite filter_none, filter_all.
    + done.
    + intros x Hx. by apply list_elem_of_filter in Hx as [Hn _].
    + intros x Hx Hn. apply reconciled_elem in Hx
        as (c & k & t & Hcin & Hk & Hl & ->).
      apply Hn. rewrite row_id_withReason_Own.
      apply taskWithId_Some in Hl as [_ ->]. rewrite <- Hk.
      apply list_elem_of_In, List.in_map. by apply list_elem_of_In.
Qed.

(** X6: reconciliation is idempotent. On task records with pairwise
    distinct ids and a valid entry whose pairs carry pairwise distinct plain
    ids, the list a cache hit returns is a fixed point: a further cache hit
    on it, as happens when the saved list is loaded again within the hour,
    returns it unchanged. *)
Theorem reconciliation_is_idempotent (oracle oracle' : Oracle)
    (clk clk' : Clock) (tasks : list Row) (w : World) (d : list CacheItem) :
  (2 <= length (activeTasks tasks))%nat ->
  validEntry (now clk) w d ->
  validEntry (now clk') w d ->
  Forall isTask tasks ->
  NoDup (ids tasks) ->
  Forall plainItem d ->
  NoDup (map cached_id d) ->
  exists out,
    runPrioritize oracle clk tasks false w = (Ok out, w)
    /\ runPrioritize oracle' clk' out false w = (Ok out, w).
Proof.
  intros Hact Hv Hv' Ht Hnd Hd Hc.
  exists (reconciled d tasks ++ notCached d tasks). split.
  - rewrite (runPrioritize_cache_hit oracle clk tasks w d) by done.
    by rewrite applyCache_plain.
  - destruct (decide (length (activeTasks
                (reconciled d tasks ++ notCached d tasks)) < 2)%nat)
      as [Hlt|Hge]; [by apply runPrioritize_few|].
    rewrite (runPrioritize_cache_hit oracle' clk' _ w d); [|lia|done].
    by rewrite applyCache_twice.
Qed.

Lemma reconciliation_is_idempotent_witness :
  exists out,
    runPrioritize (answering Thrown) morning fourTasks false rankedWorld
    = (Ok out, rankedWorld)
    /\ runPrioritize (answering (Ok Unusable)) (mkClock 9 60000 61000 61001)
                     out false rankedWorld
       = (Ok out, rankedWorld).
Proof.
  apply (reconciliation_is_idempotent (answering Thrown)
           (answering (Ok Unusable)) morning (mkClock 9 60000 61000 61001)
           fourTasks rankedWorld rankedData).
  - vm_compute. lia.
  - exists 500. split; [reflexivity | vm_compute; reflexivity].
  - exists 500. split; [reflexivity | vm_compute; reflexivity].
  - by_evaluation.
  - by_evaluation.
  - by_evaluation.
  - by_evaluation.
Defined.

(** ** Deleting, completing and editing a task *)

Lemma handleDelete_ids (k : string) (l : list Row) : Some k ∉ ids (handleDelete k l).
Proof.
  intros Hin. apply ids_elem in Hin as (t & Ht & Hid).
  by apply list_elem_of_filter in Ht as [Hne _].
Qed.

Lemma runPrioritize_ids_from_input oracle clk tasks force w out (k : string) :
  (runPrioritize oracle clk tasks force w).1 = Ok out ->
  Some k ∈ ids out -> Some k ∈ ids tasks.
Proof.
  intros Hout Hk. apply ids_elem in Hk as (r & Hr & Hid). apply ids_elem.
  assert (Hsub : forall (l : list Row) P `{forall x, Decision (P x)},
             r ∈ filter P l -> exists t, t ∈ l /\ row_id t = Some k).
  { intros l P ? Hf. apply list_elem_of_filter in Hf as [_ Hf]. by exists r. }
  destruct (runPrioritize_paths oracle clk tasks force w)
    as [[Hlt Heq]|[(Hact & Hf & Hc & Heq)|[(Hact & Hf & d & Hv & Heq)|
        [(Hact & Hby & Heq)|[(Hact & Hby & Heq)|(Hact & Hby & o & rs & Heq)]]]]];
    rewrite Heq in Hout; simpl in Hout; try done; injection Hout as <-.
  - by exists r.
  - apply applyCache_elem in Hr as [Hn|(t & Ht & Hrt)]; [congruence|].
    exists t. split; [done|congruence].
  - by exists r.
  - apply elem_of_app in Hr as [Hr|Hr]; by eapply Hsub.
  - apply elem_of_app in Hr as [Hr|Hr]; [|by eapply Hsub].
    assert (Htask : isTask r) by (by destruct r).
    destruct (rankedRows_origin o rs _ r Hr Htask) as (t & Ht & Hft).
    apply list_elem_of_filter in Ht as [_ Ht]. exists t. split; [done|].
    by rewrite <- row_id_forget, <- Hft, row_id_forget.
Qed.

(** X7: a task removed by [handleDelete] does not come back: whatever the
    cache holds and whatever the oracle answers, no later call of
    [runPrioritize] on the list returns a record with the deleted id. *)
Theorem deleted_task_stays_deleted (oracle : Oracle) (clk : Clock)
    (tasks : list Row) (force : bool) (w : World) (k : string)
    (out : list Row) :
  (runPrioritize oracle clk (handleDelete k tasks) force w).1 = Ok out ->
  Some k ∉ ids out.
Proof.
  intros Hout Hin. apply (handleDelete_ids k tasks).
  by eapply runPrioritize_ids_from_input.
Qed.

Lemma deleted_task_stays_deleted_witness :
  Some "a" ∉ ids [withReason (Text "quick win") (Own (sample "b" "active"));
                  sample "d" "done"; sample "n" "active"].
Proof.
  apply (deleted_task_stays_deleted
           (answering (Ok (Ranking ["a"; "b"] None))) morning fourTasks false
           rankedWorld "a").
  vm_compute. reflexivity.
Defined.

Lemma handleDone_cons (k : string) (isoAt : nat -> string) (x : Row)
    (l : list Row) :
  handleDone k isoAt (x :: l)
  = match x with
    | Full t => if bool_decide (id t = k) then Full (markDone (isoAt 0%nat) t)
                else x
    | Bare _ => x
    end :: handleDone k (fun i => isoAt (S i)) l.
Proof. reflexivity. Qed.

(** X8: [handleDone] keeps every id in its place, marks done exactly the
    records that carry the given id and leaves the other rows as they were;
    the active tasks afterwards are the active tasks before without those
    records, in the same order. *)
Theorem handleDone_effect (k : string) (isoAt : nat -> string) (l : list Row) :
  ids (handleDone k isoAt l) = ids l
  /\ activeTasks (handleDone k isoAt l) = handleDelete k (activeTasks l)
  /\ handleDelete k (handleDone k isoAt l) = handleDelete k l
  /\ Forall (fun r => row_id r = Some k -> row_status r = Some "done")
            (handleDone k isoAt l).
Proof.
  revert isoAt. induction l as [|x l IH]; intros isoAt.
  { repeat split; constructor. }
  destruct (IH (fun i => isoAt (S i))) as (IH1 & IH2 & IH3 & IH4).
  rewrite handleDone_cons. unfold ids, activeTasks, handleDelete in *.
  destruct x as [t|r].
  - destruct (decide (id t = k)) as [He|Hne].
    + rewrite bool_decide_true by done.
      cbn [List.map]. rewrite IH1.
      rewrite (filter_cons_False _ (Full (markDone _ t))) by done.
      rewrite (filter_cons_False _ (Full (markDone _ t)))
        by (simpl; rewrite He; tauto).
      rewrite (filter_cons_False (fun t0 => row_id t0 <> Some k) (Full t))
        by (simpl; rewrite He; tauto).
      rewrite IH3. repeat split; [| by constructor].
      rewrite filter_cons. case_decide; [|done].
      rewrite filter_cons_False by (simpl; rewrite He; tauto). done.
    + rewrite bool_decide_false by done.
      cbn [List.map]. rewrite IH1.
      rewrite (filter_cons_True (fun t0 => row_id t0 <> Some k) (Full t))
        by (simpl; congruence).
      rewrite (filter_cons_True (fun t0 => row_id t0 <> Some k) (Full t))
        by (simpl; congruence).
      rewrite IH3. repeat split.
      * rewrite !(filter_cons _ (Full t)). case_decide; [|done].
        rewrite filter_cons_True by (simpl; congruence). by rewrite IH2.
      * constructor; [simpl; congruence|done].
  - cbn [List.map]. rewrite IH1.
    rewrite !(filter_cons_False _ (Bare r)) by done.
    rewrite !(filter_cons_True (fun t0 => row_id t0 <> Some k) (Bare r)) by done.
    rewrite IH3. repeat split; [done|]. by constructor.
Qed.

Lemma handleSave_cons (u x : Row) (l : list Row) :
  handleSave u (x :: l)
  = (if bool_decide (row_id x = row_id u) then u else x) :: handleSave u l.
Proof. reflexivity. Qed.

Lemma taskWithId_cons (k : string) (x : Row) (l : list Row) :
  taskWithId k (x :: l)
  = match taskWithId k l with
    | Some t => Some t
    | None => if decide (row_id x = Some k) then Some x else None
    end.
Proof.
  unfold taskWithId. rewrite filter_cons.
  destruct (decide (row_id x = Some k)); [|by destruct (last _)].
  rewrite last_cons. by destruct (last _).
Qed.

(** X9: [handleSave] keeps every id in its place. For an edited record with
    id [k]: if no task carries [k] (it was deleted meanwhile) the list is
    unchanged and the edit is lost; otherwise looking [k] up afterwards
    gives the edited record, and the lookup of every other id is as
    before. *)
Theorem handleSave_lookup (u : Row) (k : string) (l : list Row) :
  row_id u = Some k ->
  ids (handleSave u l) = ids l
  /\ (Some k ∉ ids l -> handleSave u l = l)
  /\ (Some k ∈ ids l -> taskWithId k (handleSave u l) = Some u)
  /\ (forall k', k' <> k -> taskWithId k' (handleSave u l) = taskWithId k' l).
Proof.
  intros Hu. induction l as [|x l (IH1 & IH2 & IH3 & IH4)].
  { repeat split; try done. intros Hin. by apply elem_of_nil in Hin. }
  rewrite handleSave_cons, Hu. unfold ids in *. cbn [List.map].
  destruct (decide (row_id x = Some k)) as [He|Hne].
  - rewrite bool_decide_true by done. rewrite Hu, He, IH1.
    repeat split.
    + intros Hn. destruct Hn. by left.
    + intros _. rewrite taskWithId_cons.
      destruct (decide (Some k ∈ map row_id l)) as [Hin|Hnin].
      * by rewrite IH3.
      * rewrite IH2 by done.
        destruct (taskWithId k l) as [t|] eqn:Ht.
        { apply taskWithId_Some in Ht as [Ht Hid]. destruct Hnin.
          apply (ids_elem l). by exists t. }
        by rewrite decide_True.
    + intros k' Hk'. rewrite !taskWithId_cons, IH4 by done.
      destruct (taskWithId k' l); [done|].
      rewrite !decide_False by congruence. done.
  - rewrite bool_decide_false by done. rewrite IH1. repeat split.
    + intros Hn. f_equal. apply IH2. intros Hin. apply Hn. by right.
    + intros Hin. apply elem_of_cons in Hin as [Hin|Hin]; [congruence|].
      by rewrite taskWithId_cons, IH3.
    + intros k' Hk'. by rewrite !taskWithId_cons, IH4.
Qed.

Lemma handleSave_lookup_witness :
  ids (handleSave (sample "a" "done") threeTasks) = ids threeTasks
  /\ (Some "a" ∉ ids threeTasks
      -> handleSave (sample "a" "done") threeTasks = threeTasks)
  /\ (Some "a" ∈ ids threeTasks
      -> taskWithId "a" (handleSave (sample "a" "done") threeTasks)
         = Some (sample "a" "done"))
  /\ (forall k', k' <> "a"
      -> taskWithId k' (handleSave (sample "a" "done") threeTasks)
         = taskWithId k' threeTasks).
Proof. apply (handleSave_lookup (sample "a" "done") "a" threeTasks). reflexivity. Defined.

(** ** Adding a task, and the oracle's order *)

Lemma byId_lookup_key (l : list Row) (r : Row) :
  r ∈ l -> exists r', byId l !! propKey (row_id r) = Some r'.
Proof.
  induction l as [|x l IH] using rev_ind; intros Hr.
  - by apply elem_of_nil in Hr.
  - rewrite byId_snoc.
    destruct (decide (propKey (row_id x) = propKey (row_id r))) as [He|Hne].
    + rewrite He, lookup_insert_eq. by eexists.
    + rewrite lookup_insert_ne by done. apply IH.
      apply elem_of_app in Hr as [Hr|Hr]; [done|].
      apply list_elem_of_singleton in Hr. by subst.
Qed.

Lemma rankedRows_found (order : list string)
    (reasons : option (gmap string string)) (l : list Row) (k : string)
    (r : Row) :
  k ∈ order -> byId l !! k = Some r ->
  exists x, withReason x (Own r) ∈ rankedRows order reasons l.
Proof.
  intros Hk Hl. induction order as [|k' order IH].
  - by apply elem_of_nil in Hk.
  - rewrite rankedRows_cons.
    apply elem_of_cons in Hk as [<-|Hk].
    + unfold getProp. rewrite Hl. eexists. by left.
    + destruct (IH Hk) as [x Hx]. exists x.
      destruct (getProp (byId l) k'); [by right|by right|done].
Qed.

(** X10: when [handleAdd] gets a ranking for the list with the new task
    (two active tasks or more, the new id not yet in the list), the stored
    list holds the new task exactly when the oracle's order names its id: a
    task the oracle leaves out is lost as soon as it is added. *)
Theorem added_task_kept_iff_ranked (oracle : Oracle) (clk : Clock)
    (rnd : string) (parsed : Draft) (createdAt : string)
    (tasks : list Row) (w : World) (order : list string)
    (reasons : option (gmap string string)) :
  let task := newTask rnd parsed createdAt in
  (2 <= length (activeTasks (task :: tasks)))%nat ->
  Some (uid rnd) ∉ ids tasks ->
  oracle (timeOfDay (hour clk)) (activeTasks (task :: tasks))
  = Ok (Ranking order reasons) ->
  Some (uid rnd) ∈ ids (handleAdd oracle clk (Some task) tasks w).1
  <-> uid rnd ∈ order.
Proof.
  intros task Hact Hfresh Ho. unfold handleAdd.
  assert (Hby : Bypassed true (now clk) w) by (by left).
  rewrite (runPrioritize_ranking _ _ _ _ _ Hact Hby order reasons Ho).
  cbn [fst]. split.
  - intros Hin. apply ids_elem in Hin as (r & Hr & Hid).
    apply elem_of_app in Hr as [Hr|Hr]; [by eapply rankedRows_ids|].
    apply list_elem_of_filter in Hr as [Hn Hr].
    apply elem_of_cons in Hr as [->|Hr]; [done|].
    destruct Hfresh. apply ids_elem. by exists r.
  - intros Hk.
    assert (Hnew : task ∈ activeTasks (task :: tasks)).
    { apply list_elem_of_filter. split; [done|by left]. }
    destruct (byId_lookup_key _ _ Hnew) as [r' Hl]. cbn [propKey row_id task newTask id] in Hl.
    destruct (rankedRows_found order reasons _ _ r' Hk Hl) as [x Hx].
    apply ids_elem. exists (withReason x (Own r')).
    split; [apply elem_of_app; by left|].
    rewrite row_id_withReason_Own.
    apply byId_lookup_Some in Hl as [Hin Hkey].
    apply list_elem_of_filter in Hin as [Ha _].
    destruct r' as [t|]; [|done]. simpl in *. by rewrite Hkey.
Qed.

Lemma added_task_kept_iff_ranked_witness :
  Some (uid "0.n7k2q9xz4")
    ∈ ids (handleAdd (answering (Ok (Ranking ["b"; "a"] None))) morning
             (Some (newTask "0.n7k2q9xz4" sampleDraft "2024-05-01T09:00:00.000Z"))
             threeTasks emptyWorld).1
  <-> uid "0.n7k2q9xz4" ∈ ["b"; "a"].
Proof.
  apply (added_task_kept_iff_ranked (answering (Ok (Ranking ["b"; "a"] None)))
           morning "0.n7k2q9xz4" sampleDraft "2024-05-01T09:00:00.000Z"
           threeTasks emptyWorld ["b"; "a"] None).
  - vm_compute. lia.
  - by_evaluation.
  - reflexivity.
Defined.

(** ** Views *)

(** X11: the three sections of [TodayView] cut the active tasks, in their
    order, into the first two, the next three and the rest: put end to end
    they give the active tasks back, no task missing and none shown twice. *)
Theorem todaySections_partition (tasks : list Row) :
  let '(nowList, todayList, laterList) := todaySections tasks in
  nowList ++ todayList ++ laterList = activeTasks tasks
  /\ length nowList = Nat.min 2 (length (activeTasks tasks))
  /\ length todayList = Nat.min 3 (length (activeTasks tasks) - 2)
  /\ length laterList = (length (activeTasks tasks) - 5)%nat.
Proof.
  unfold todaySections, slice. fold (activeTasks tasks).
  generalize (activeTasks tasks) as l. intros l. cbn [Nat.sub drop].
  split; [|split; [|split]].
  - rewrite drop_0. change 5%nat with (2 + 3)%nat. rewrite <- drop_drop.
    by rewrite (take_drop 3), take_drop.
  - by rewrite length_take.
  - by rewrite length_take, length_drop.
  - by rewrite length_drop.
Qed.

Lemma ceilDiv_spec (n m q : Z) :
  0 < m -> (ceilDiv n m = q <-> (q - 1) * m < n <= q * m).
Proof.
  intros Hm. unfold ceilDiv.
  pose proof (Z.div_mod (- n) m ltac:(lia)) as Hdm.
  pose proof (Z.mod_pos_bound (- n) m Hm) as Hb.
  split; intros H; nia.
Qed.

(** X12: for a deadline that reads as a date and lies no more than 2^53 ms
    from the clock reading (both are time values, and the difference the code
    computes is then exact), with [day] = 86400000 ms and [d - t] the time
    left: the label is "overdue" exactly when the deadline lies a full day
    or more in the past, "today" from there up to the deadline itself,
    "tomorrow" for at most one day ahead, and a number of days, two or more,
    beyond; the warning flag is up exactly when at most one day is left. *)
Theorem formatDeadline_thresholds (d t : Z) :
  timeValue d -> timeValue t -> Z.abs (d - t) <= 2 ^ 53 ->
  let day := 86400000 in
  (formatDeadline (DateAt d) t = Some (Overdue, true) <-> d - t <= - day)
  /\ (formatDeadline (DateAt d) t = Some (Today, true)
      <-> - day < d - t <= 0)
  /\ (formatDeadline (DateAt d) t = Some (Tomorrow, true)
      <-> 0 < d - t <= day)
  /\ (forall n, formatDeadline (DateAt d) t = Some (InDays (Some n), false)
                <-> 2 <= n /\ (n - 1) * day < d - t <= n * day)
  /\ ((exists l, formatDeadline (DateAt d) t = Some (l, true))
      <-> d - t <= day).
Proof.
  intros _ _ _ day. subst day. unfold formatDeadline.
  set (q := ceilDiv (d - t) 86400000).
  assert (Hq : (q - 1) * 86400000 < d - t <= q * 86400000)
    by (by apply (ceilDiv_spec (d - t) 86400000 q)).
  assert (Hlabel : forall l b,
            (Some (l, b) = Some (Overdue, true) <-> l = Overdue /\ b = true)
            /\ (Some (l, b) = Some (Today, true) <-> l = Today /\ b = true)
            /\ (Some (l, b) = Some (Tomorrow, true) <-> l = Tomorrow /\ b = true)
            /\ (forall n, Some (l, b) = Some (InDays (Some n), false)
                          <-> l = InDays (Some n) /\ b = false)
            /\ ((exists l', Some (l, b) = Some (l', true)) <-> b = true)).
  { intros l b. split; [|split; [|split; [|split]]].
    - split; [intros Heq; by injection Heq | by intros [-> ->]].
    - split; [intros Heq; by injection Heq | by intros [-> ->]].
    - split; [intros Heq; by injection Heq | by intros [-> ->]].
    - intros n. split; [intros Heq; by injection Heq | by intros [-> ->]].
    - split; [intros [l' Heq]; by injection Heq | intros ->; by exists l]. }
  repeat case_bool_decide;
    match goal with
    | |- context [Some (?l, ?b)] =>
        destruct (Hlabel l b) as (L1 & L2 & L3 & L4 & L5)
    end;
    rewrite L1, L2, L3, L5; clear L1 L2 L3 L5;
    (split; [|split; [|split; [|split]]]);
    try (intros n; rewrite (L4 n)); clear L4;
    try (split; [intros [Hl Hb]; try discriminate Hl; try discriminate Hb;
                 try lia
                |intros Hr; try (exfalso; lia); try done]);
    try (split; [intros Hb; try discriminate Hb; lia
                |intros Hr; try (exfalso; lia); try done]).
  - injection Hl as <-. lia.
  - destruct Hr as [H2 Hn]. split; [|done]. do 2 f_equal. lia.
Qed.

Lemma formatDeadline_thresholds_witness :
  let d := 1700250000000 in
  let t := 1700000000000 in
  let day := 86400000 in
  (formatDeadline (DateAt d) t = Some (Overdue, true) <-> d - t <= - day)
  /\ (formatDeadline (DateAt d) t = Some (Today, true)
      <-> - day < d - t <= 0)
  /\ (formatDeadline (DateAt d) t = Some (Tomorrow, true)
      <-> 0 < d - t <= day)
  /\ (forall n, formatDeadline (DateAt d) t = Some (InDays (Some n), false)
                <-> 2 <= n /\ (n - 1) * day < d - t <= n * day)
  /\ ((exists l, formatDeadline (DateAt d) t = Some (l, true))
      <-> d - t <= day).
Proof.
  apply (formatDeadline_thresholds 1700250000000 1700000000000).
  - unfold timeValue. lia.
  - unfold timeValue. lia.
  - by_evaluation.
Defined.

Lemma substring_length (n m : nat) (s : string) :
  String.length (String.substring n m s) = Nat.min m (String.length s - n).
Proof.
  revert n m. induction s as [|c s IH]; intros [|n] [|m]; simpl; try done;
    by rewrite IH, ?Nat.sub_0_r.
Qed.

(** X13: [uid] yields the characters of the random text after its first
    two, seven at most: its length is the smaller of 7 and the length of
    the text less 2, so that the id is empty when the text is "0". *)
Theorem uid_length (rnd : string) :
  String.length (uid rnd) = Nat.min 7 (String.length rnd - 2)
  /\ uid "0" = "".
Proof. split; [apply substring_length|reflexivity]. Qed.

(** ** The focus timer *)

Lemma FOCUS_DURATIONS_positive (d : Z) : d ∈ Focus.FOCUS_DURATIONS -> 0 < d.
Proof.
  unfold Focus.FOCUS_DURATIONS. rewrite !elem_of_cons, elem_of_nil. lia.
Qed.

(** X14: in every state the focus timer can reach, the duration is one of
    [FOCUS_DURATIONS], the time left lies between 0 and the duration, the
    timer shows "finished" exactly when no time is left, and a finished
    timer is not running. *)
Theorem focus_invariant (s : Focus.State) :
  Focus.reachable s ->
  Focus.duration s ∈ Focus.FOCUS_DURATIONS
  /\ 0 <= Focus.timeLeft s <= Focus.duration s
  /\ (Focus.finished s = true <-> Focus.timeLeft s = 0)
  /\ (Focus.finished s = true -> Focus.running s = false).
Proof.
  induction 1 as [|a s Hs (Hd & Hb & Hf & Hr) Ha].
  - split; [by left|]. simpl. repeat split; try done; lia.
  - pose proof (FOCUS_DURATIONS_positive _ Hd) as Hpos.
    destruct s as [dur left run fin full]. simpl in *.
    assert (Hfin : (fin = true /\ left = 0 /\ run = false)
                   \/ (fin = false /\ left <> 0)).
    { destruct fin; [left|right].
      - repeat split; [by apply Hf|by apply Hr].
      - split; [done|]. intros Hz. by apply Hf in Hz. }
    clear Hf Hr.
    destruct a; simpl in Ha;
      try (pose proof (FOCUS_DURATIONS_positive _ Ha));
      destruct Hfin as [(-> & -> & ->)|[-> Hnz]]; try destruct run;
      unfold Focus.act, Focus.tick, Focus.handleStart, Focus.handlePause,
        Focus.handleReset, Focus.handleChangeDuration; simpl;
      repeat case_bool_decide; simpl;
      (split; [done|]); (split; [lia|]);
      (split; [split; intros; try done; lia | intros; try done]).
Qed.

Lemma focus_invariant_witness :
  let s := (Focus.act Focus.Tick (Focus.act Focus.Start Focus.initial).1).1 in
  Focus.duration s ∈ Focus.FOCUS_DURATIONS
  /\ 0 <= Focus.timeLeft s <= Focus.duration s
  /\ (Focus.finished s = true <-> Focus.timeLeft s = 0)
  /\ (Focus.finished s = true -> Focus.running s = false).
Proof.
  apply focus_invariant.
  apply Focus.reachable_act; [|exact I].
  apply Focus.reachable_act; [|exact I].
  apply Focus.reachable_initial.
Defined.

Lemma ticks_before_end (m : nat) (s : Focus.State) :
  Focus.running s = true ->
  Z.of_nat m < Focus.timeLeft s ->
  (Focus.ticks m s).1
  = Focus.mkState (Focus.duration s) (Focus.timeLeft s - Z.of_nat m) true
                  (Focus.finished s) (Focus.fullscreen s)
  /\ Focus.playDone ∉ (Focus.ticks m s).2.
Proof.
  revert s. induction m as [|m IH]; intros s Hrun Hlt.
  - simpl. split; [|apply not_elem_of_nil].
    destruct s; simpl in *; subst. f_equal. lia.
  - cbn [Focus.ticks]. unfold Focus.tick. rewrite Hrun.
    rewrite bool_decide_false by lia.
    match goal with
    | |- context [Focus.ticks m ?s1] =>
        destruct (IH s1) as [IH1 IH2]; [simpl; done | simpl; lia |];
        destruct (Focus.ticks m s1) as [s2 snd2]
    end.
    simpl in *. split.
    + rewrite IH1. f_equal. lia.
    + case_bool_decide; simpl; [|done].
      rewrite elem_of_cons. intros [Hne|Hin]; [done|]. by apply IH2.
Qed.

(** X15: a running timer with [n + 1] seconds left keeps running, without
    the end sound, for the next [n] firings of its interval, counting down
    by one each time; the firing after that stops it at zero, marks it
    finished, and the end sound is the last one played. *)
Theorem focus_countdown (s : Focus.State) (n : nat) :
  Focus.running s = true ->
  Focus.timeLeft s = Z.of_nat (S n) ->
  (forall m, (m <= n)%nat ->
     (Focus.ticks m s).1
     = Focus.mkState (Focus.duration s) (Focus.timeLeft s - Z.of_nat m) true
                     (Focus.finished s) (Focus.fullscreen s)
     /\ Focus.playDone ∉ (Focus.ticks m s).2)
  /\ (Focus.ticks (S n) s).1
     = Focus.mkState (Focus.duration s) 0 false true (Focus.fullscreen s)
  /\ last (Focus.ticks (S n) s).2 = Some Focus.playDone.
Proof.
  intros Hrun Hleft. split.
  { intros m Hm. apply ticks_before_end; [done|lia]. }
  revert s Hrun Hleft. induction n as [|n IH]; intros s Hrun Hleft.
  - cbn [Focus.ticks]. unfold Focus.tick. rewrite Hrun.
    rewrite bool_decide_true by lia. by simpl.
  - cbn [Focus.ticks] in *. unfold Focus.tick at 1 3. rewrite Hrun.
    rewrite bool_decide_false by lia.
    match goal with
    | |- context [let (_, _) := Focus.tick ?s1 in _] =>
        destruct (IH s1) as [IH1 IH2]; [simpl; done | simpl; lia |];
        destruct (Focus.tick s1) as [s2 snd2];
        destruct (Focus.ticks n s2) as [s3 snd3]
    end.
    cbn [fst snd] in *. split; [exact IH1|].
    case_bool_decide; [|exact IH2]. cbn [app].
    destruct (snd2 ++ snd3) as [|x l]; [discriminate IH2|exact IH2].
Qed.

Lemma focus_countdown_witness :
  let s := Focus.mkState 300 3 true false true in
  (forall m, (m <= 2)%nat ->
     (Focus.ticks m s).1
     = Focus.mkState 300 (3 - Z.of_nat m) true false true
     /\ Focus.playDone ∉ (Focus.ticks m s).2)
  /\ (Focus.ticks 3 s).1 = Focus.mkState 300 0 false true true
  /\ last (Focus.ticks 3 s).2 = Some Focus.playDone.
Proof.
  apply (focus_countdown (Focus.mkState 300 3 true false true) 2);
    reflexivity.
Defined.

(** ** The most productive day *)

Lemma foldl_most_completed (a : Day) (l : list Day) :
  let b := foldl (fun a b => if bool_decide (completed a < completed b)%nat
                             then b else a) a l in
  (b = a /\ forall d, d ∈ l -> (completed d <= completed a)%nat)
  \/ (exists l1 l2, l = l1 ++ b :: l2
        /\ (completed a < completed b)%nat
        /\ (forall d, d ∈ l1 -> (completed d < completed b)%nat)
        /\ (forall d, d ∈ l2 -> (completed d <= completed b)%nat)).
Proof.
  revert a. induction l as [|x l IH]; intros a; simpl.
  { left. split; [done|]. intros d Hd. by apply elem_of_nil in Hd. }
  case_bool_decide as Hlt.
  - destruct (IH x) as [[Hb Hle]|(l1 & l2 & Hl & Hxb & H1 & H2)].
    + right. exists [], l. rewrite Hb. repeat split; try done.
      intros d Hd. by apply elem_of_nil in Hd.
    + right. exists (x :: l1), l2. rewrite Hl at 1. repeat split; try done.
      * lia.
      * intros d Hd. apply elem_of_cons in Hd as [->|Hd]; [done|by apply H1].
  - destruct (IH a) as [[Hb Hle]|(l1 & l2 & Hl & Hab & H1 & H2)].
    + left. split; [done|]. intros d Hd.
      apply elem_of_cons in Hd as [->|Hd]; [lia|by apply Hle].
    + right. exists (x :: l1), l2. rewrite Hl at 1. repeat split; try done.
      intros d Hd. apply elem_of_cons in Hd as [->|Hd]; [lia|by apply H1].
Qed.

(** X16: the day [loadInsight] names as the most productive one is a day of
    the list with the largest number of completed tasks, and among the days
    with that number it is the earliest: every day before it has strictly
    fewer. Only an empty list has no such day. *)
Theorem mostProductive_first_maximum (days : list Day) :
  (mostProductive days = None <-> days = [])
  /\ forall best, mostProductive days = Some best ->
       exists l1 l2, days = l1 ++ best :: l2
         /\ (forall d, d ∈ l1 -> (completed d < completed best)%nat)
         /\ (forall d, d ∈ l2 -> (completed d <= completed best)%nat).
Proof.
  destruct days as [|d0 rest]; [by split|].
  split; [by split|]. intros best Hbest. unfold mostProductive in Hbest.
  injection Hbest as Hbest. cbn [foldl] in Hbest.
  rewrite bool_decide_false in Hbest by lia.
  destruct (foldl_most_completed d0 rest)
    as [[Hb Hle]|(l1 & l2 & Hl & Hlt & H1 & H2)]; rewrite Hbest in *.
  - exists [], rest. rewrite Hb. repeat split; try done.
    intros d Hd. by apply elem_of_nil in Hd.
  - exists (d0 :: l1), l2. rewrite Hl at 1. repeat split; try done.
    intros d Hd. apply elem_of_cons in Hd as [->|Hd]; [done|by apply H1].
Qed.

(** ** An unusable answer is cached too *)

Lemma writtenEntry_plain (l : list Row) (t : Z) :
  Forall (fun r => persisted (row_reason r) = row_reason r) l ->
  writtenEntry l t = entryFor l t.
Proof.
  intros Hl. unfold writtenEntry, entryFor. do 2 f_equal.
  rewrite List.map_map. simpl. apply List.map_ext_in. intros r Hr.
  f_equal. apply (proj1 (Forall_forall _ _) Hl). by apply list_elem_of_In.
Qed.

(** X17: when a forced call gets an answer that cannot be used (on task
    records with pairwise distinct ids, the active ones with plain ids and
    with reasons that are strings or null), the unranked order it writes to
    the cache is served for the next hour: an unforced call on the returned
    list within that hour returns the list as it is and does not ask the
    oracle again. *)
Theorem unusable_answer_is_served_from_cache (oracle oracle' : Oracle)
    (clk clk' : Clock) (tasks : list Row) (w : World) :
  (2 <= length (activeTasks tasks))%nat ->
  Forall isTask tasks ->
  NoDup (ids tasks) ->
  Forall (fun r => plainItem (mkItem (row_id r) (row_reason r))
                   /\ persisted (row_reason r) = row_reason r)
         (activeTasks tasks) ->
  oracle (timeOfDay (hour clk)) (activeTasks tasks) = Ok Unusable ->
  now clk' - later clk < 60 * 60 * 1000 ->
  let r1 := runPrioritize oracle clk tasks true w in
  r1.1 = Ok (activeTasks tasks ++ otherTasks tasks)
  /\ cache r1.2
     = Some (SJson (JEntry (entryFor (activeTasks tasks) (later clk))))
  /\ runPrioritize oracle' clk' (activeTasks tasks ++ otherTasks tasks) false r1.2
     = (Ok (activeTasks tasks ++ otherTasks tasks), r1.2).
Proof.
  intros Hact Ht Hnd Hp Ho Hfresh r1. subst r1.
  assert (Hby : Bypassed true (now clk) w) by (by left).
  rewrite (runPrioritize_unusable _ _ _ _ _ Hact Hby Ho). cbn [fst snd].
  apply Forall_and in Hp as [Hplain Hpers].
  split; [done|]. split.
  { unfold afterRanking. cbn [cache]. by rewrite writtenEntry_plain. }
  set (out := activeTasks tasks ++ otherTasks tasks).
  destruct (decide (length (activeTasks out) < 2)%nat) as [Hlt|Hge];
    [by apply runPrioritize_few|].
  rewrite (runPrioritize_cache_hit _ _ _ _
             (map (fun r => mkItem (row_id r) (row_reason r)) (activeTasks tasks))).
  - subst out. rewrite applyCache_written; [done| |  |done].
    + apply Forall_app. split; apply Forall_forall; intros r Hr;
        apply list_elem_of_filter in Hr as [_ Hr];
        by apply (proj1 (Forall_forall _ _) Ht).
    + unfold ids. by rewrite map_fmap, partition_perm, <- map_fmap.
  - lia.
  - exists (later clk). split; [|done]. unfold afterRanking. cbn [cache].
    by rewrite writtenEntry_plain.
Qed.

Lemma unusable_answer_is_served_from_cache_witness :
  let r1 := runPrioritize (answering (Ok Unusable)) morning threeTasks true
                          emptyWorld in
  r1.1 = Ok (activeTasks threeTasks ++ otherTasks threeTasks)
  /\ cache r1.2
     = Some (SJson (JEntry (entryFor (activeTasks threeTasks) (later morning))))
  /\ runPrioritize (answering (Ok (Ranking ["b"; "a"] None)))
                   (mkClock 10 60000 61000 61001)
                   (activeTasks threeTasks ++ otherTasks threeTasks) false r1.2
     = (Ok (activeTasks threeTasks ++ otherTasks threeTasks), r1.2).
Proof.
  apply (unusable_answer_is_served_from_cache (answering (Ok Unusable))
           (answering (Ok (Ranking ["b"; "a"] None))) morning
           (mkClock 10 60000 61000 61001) threeTasks emptyWorld).
  - vm_compute. lia.
  - by_evaluation.
  - by_evaluation.
  - by_evaluation.
  - reflexivity.
  - vm_compute. reflexivity.
Defined.
